(** * monitor-data-archiver: the five-minute compaction of monitor data

    A shallow embedding of [compileMonitorData], [compileAndStoreinS3] and
    [HandleRequest] (the archiving Lambda of the repository) together with
    the parts of Go's [time], [sort] and [encoding/json] packages that they
    call, and the properties of the window arithmetic, the bucketing, the
    object keys and the error paths. *)

From Stdlib Require Import ZArith Lia Ascii String List Bool Sorting.Sorted.
From stdpp Require Import gmap strings list fin_maps sorting.

Import ListNotations.
Local Open Scope string_scope.
Local Open Scope list_scope.
Local Open Scope Z_scope.
Local Set Warnings "-register-all".

(** ** Go's [time] package, as far as the archiver uses it *)

Module time.

(** A [time.Time] is an instant together with the location it is shown in.
    [abs] counts nanoseconds since the zero time, January 1 of year 1,
    00:00:00 UTC (the origin [Round] works from); [zone] is the offset of
    the location in seconds east of UTC. The zero value [Time{}] is the zero
    time in UTC. Comparisons ([Before], [After]) look at the instant only.
    Go's bounds on a [Time] (64-bit seconds) lie far outside what a
    four-digit year reaches and are not modelled. *)
Record Time : Type := mkTime { abs : Z; zone : Z }.

(** A [time.Duration] is a count of nanoseconds. *)
Definition Duration : Type := Z.

Definition Nanosecond : Duration := 1.
Definition Second : Duration := 1000000000.
Definition Minute : Duration := 60 * Second.

Definition zeroTime : Time := mkTime 0 0.

Definition Before (t u : Time) : bool := abs t <? abs u.
Definition After (t u : Time) : bool := abs u <? abs t.
Definition Add (t : Time) (d : Duration) : Time := mkTime (abs t + d) (zone t).

(** [t.Round(d)]: the nearest multiple of [d] since the zero time, halfway
    values rounding up; [t] itself when [d <= 0]. As in the library, [r] is
    the remainder of the instant modulo [d], taken in [0, d). *)
Definition Round (t : Time) (d : Duration) : Time :=
  if d <=? 0 then t
  else
    let r := abs t mod d in
    if r + r <? d then Add t (- r) else Add t (d - r).

(** *** Calendar

    Days are counted from January 1 of year 1 (day 0) in the proleptic
    Gregorian calendar, as Go's [Date] and [Time.Date] do. *)

Definition isLeap (year : Z) : bool :=
  (year mod 4 =? 0) && (negb (year mod 100 =? 0) || (year mod 400 =? 0)).

Definition daysIn (month year : Z) : Z :=
  if month =? 2 then (if isLeap year then 29 else 28)
  else if (month =? 4) || (month =? 6) || (month =? 9) || (month =? 11) then 30
  else 31.

(** The calendar repeats every 400 years, an era of 146097 days. Within an
    era the years are counted from March 1, so that the leap day is the last
    day of its year. [eraDay] numbers the days of an era from a year of the
    era, a month and a day; [eraDate] is its inverse. *)
Definition eraDay (yoe month day : Z) : Z :=
  let mp := if 2 <? month then month - 3 else month + 9 in
  let doy := (153 * mp + 2) / 5 + day - 1 in
  yoe * 365 + yoe / 4 - yoe / 100 + doy.

Definition eraDate (doe : Z) : Z * Z * Z :=
  let yoe := (doe - doe / 1460 + doe / 36524 - doe / 146096) / 365 in
  let doy := doe - (365 * yoe + yoe / 4 - yoe / 100) in
  let mp := (5 * doy + 2) / 153 in
  let day := doy - (153 * mp + 2) / 5 + 1 in
  let month := if mp <? 10 then mp + 3 else mp - 9 in
  (yoe, month, day).

(** Day number of a civil date. Day 0, January 1 of year 1, is day 306 of
    the era that starts on March 1 of year 0. *)
Definition dateToDays (year month day : Z) : Z :=
  let y := if month <=? 2 then year - 1 else year in
  (y / 400) * 146097 + eraDay (y mod 400) month day - 306.

(** Civil date (year, month, day) of a day number. *)
Definition daysToDate (days : Z) : Z * Z * Z :=
  let z := days + 306 in
  let '(yoe, month, day) := eraDate (z mod 146097) in
  (yoe + (z / 146097) * 400 + (if month <=? 2 then 1 else 0), month, day).

(** [Date(year, month, day, hour, min, sec, nsec, UTC)] for fields in their
    normal ranges, as an instant. *)
Definition Date (year month day hour min sec nsec : Z) : Z :=
  (dateToDays year month day * 86400 + hour * 3600 + min * 60 + sec) * Second
  + nsec.

(** *** [time.Parse(time.RFC3339, value)]

    The layout is [2006-01-02T15:04:05Z07:00]. As the library does, the
    parser takes an hour of one or two digits, a fraction of a second after
    the seconds, and an offset of up to 24 hours and 60 minutes; it checks
    the day against the month and the year. The offset of the value is kept
    as its location. [Parse] returns [None] where the library returns an
    error (the caller then holds the zero [Time]). *)

Definition isDigit (c : ascii) : bool :=
  let n := Z.of_nat (nat_of_ascii c) in (48 <=? n) && (n <=? 57).

Definition digitVal (c : ascii) : Z := Z.of_nat (nat_of_ascii c) - 48.

(** [getnum(s, fixed)]: a number of one or two digits, of exactly two when
    [fixed]. *)
Definition getnum (s : string) (fixed : bool) : option (Z * string) :=
  match s with
  | String c0 rest =>
      if isDigit c0 then
        match rest with
        | String c1 rest' =>
            if isDigit c1 then Some (digitVal c0 * 10 + digitVal c1, rest')
            else if fixed then None else Some (digitVal c0, rest)
        | EmptyString => if fixed then None else Some (digitVal c0, rest)
        end
      else None
  | EmptyString => None
  end.

(** The four-digit year of [stdLongYear]. *)
Definition getyear (s : string) : option (Z * string) :=
  match s with
  | String a (String b (String c (String d rest))) =>
      if isDigit a && isDigit b && isDigit c && isDigit d
      then Some (((digitVal a * 10 + digitVal b) * 10 + digitVal c) * 10
                 + digitVal d, rest)
      else None
  | _ => None
  end.

(** A literal character of the layout. *)
Definition skip (s : string) (c : ascii) : option string :=
  match s with
  | String c' rest => if Ascii.eqb c c' then Some rest else None
  | EmptyString => None
  end.

Fixpoint leadingDigits (s : string) : list Z * string :=
  match s with
  | String c rest =>
      if isDigit c
      then let '(ds, tl) := leadingDigits rest in (digitVal c :: ds, tl)
      else ([], s)
  | EmptyString => ([], s)
  end.

(** [parseNanoseconds]: the first nine digits of a fraction, scaled to
    nanoseconds; further digits are dropped. *)
Definition parseNanoseconds (ds : list Z) : Z :=
  let ds9 := firstn 9 ds in
  fold_left (fun ns d => ns * 10 + d) ds9 0 * 10 ^ (9 - Z.of_nat (length ds9)).

(** The fraction that may follow the seconds although the layout has none:
    a period or comma followed by at least one digit. *)
Definition getfraction (s : string) : Z * string :=
  match s with
  | String c (String d rest) =>
      if (Ascii.eqb c "." || Ascii.eqb c ",") && isDigit d
      then let '(ds, tl) := leadingDigits (String d rest) in
           (parseNanoseconds ds, tl)
      else (0, s)
  | _ => (0, s)
  end.

(** [Z07:00]: either [Z], or a sign, two digits, a colon and two digits;
    the offset in seconds east of UTC. *)
Definition getzone (s : string) : option (Z * string) :=
  match s with
  | String sign rest =>
      if Ascii.eqb sign "Z" then Some (0, rest)
      else
        match rest with
        | String h1 (String h2 (String colon (String m1 (String m2 rest')))) =>
            if negb (Ascii.eqb colon ":") then None
            else
              '(hr, _) ← getnum (String h1 (String h2 "")) true;
              '(mm, _) ← getnum (String m1 (String m2 "")) true;
              if (24 <? hr) || (60 <? mm) then None
              else
                let zoneOffset := (hr * 60 + mm) * 60 in
                if Ascii.eqb sign "+" then Some (zoneOffset, rest')
                else if Ascii.eqb sign "-" then Some (- zoneOffset, rest')
                else None
        | _ => None
        end
  | EmptyString => None
  end.

Definition Parse (value : string) : option Time :=
  '(year, value) ← getyear value;
  value ← skip value "-";
  '(month, value) ← getnum value true;
  value ← skip value "-";
  '(day, value) ← getnum value true;
  value ← skip value "T";
  '(hour, value) ← getnum value false;
  value ← skip value ":";
  '(min, value) ← getnum value true;
  value ← skip value ":";
  '(sec, value) ← getnum value true;
  let '(nsec, value) := getfraction value in
  '(zoneOffset, value) ← getzone value;
  if negb (String.eqb value "") then None
  else if (month <=? 0) || (12 <? month) || (24 <=? hour) || (60 <=? min)
          || (60 <=? sec) || (day <? 1) || (daysIn month year <? day)
  then None
  else Some (mkTime (Date year month day hour min sec nsec - zoneOffset * Second)
                    zoneOffset).

(** *** [t.Format(time.RFC3339)] *)

Definition digitChar (d : Z) : ascii := ascii_of_nat (Z.to_nat (48 + d)).

Fixpoint decimal (fuel : nat) (u : Z) (acc : string) : string :=
  match fuel with
  | O => acc
  | S fuel' =>
      let acc' := String (digitChar (u mod 10)) acc in
      if u <? 10 then acc' else decimal fuel' (u / 10) acc'
  end.

Fixpoint zeros (n : nat) : string :=
  match n with O => "" | S n' => String "0" (zeros n') end.

(** [appendInt(b, x, width)]: a minus sign for a negative [x], then the
    decimal digits of its magnitude, padded with zeros to [width]. *)
Definition appendInt (x : Z) (width : nat) : string :=
  let u := Z.abs x in
  let ds := decimal (S (Z.to_nat (Z.log2 u))) u "" in
  (if x <? 0 then "-" else "")
  +:+ zeros (width - String.length ds) +:+ ds.

(** The zone of [Z07:00]: [Z] for offset zero, else sign, hours, colon,
    minutes (the offset in minutes truncated toward zero). *)
Definition formatZone (offset : Z) : string :=
  if offset =? 0 then "Z"
  else
    let zone := Z.quot offset 60 in
    let sign := if zone <? 0 then "-" else "+" in
    let zone := Z.abs zone in
    sign +:+ appendInt (zone / 60) 2 +:+ ":" +:+ appendInt (zone mod 60) 2.

Definition Format (t : Time) : string :=
  let secs := abs t / Second + zone t in
  let '(year, month, day) := daysToDate (secs / 86400) in
  let sod := secs mod 86400 in
  appendInt year 4 +:+ "-" +:+ appendInt month 2 +:+ "-" +:+ appendInt day 2
  +:+ "T" +:+ appendInt (sod / 3600) 2 +:+ ":" +:+ appendInt (sod mod 3600 / 60) 2
  +:+ ":" +:+ appendInt (sod mod 60) 2 +:+ formatZone (zone t).

End time.

Import time.

(** ** Constants of the archiver *)

Definition FILE_DURATION : Duration := 5 * Minute.
Definition BUCKET_NAME : string := "lumi-monitor-data".

(** ** The window bounds of [compileMonitorData]

    [roundedDownStartTime] and [roundedUpEndTime] are the two corrected
    roundings at the head of [compileMonitorData], with the file duration
    as a parameter [D]. *)

Definition roundedDownStartTime (D : Duration) (firstTimestamp : Time) : Time :=
  let r := Round firstTimestamp D in
  if After r firstTimestamp then Add r (- D) else r.

Definition roundedUpEndTime (D : Duration) (lastTimestamp : Time) : Time :=
  let r := Round lastTimestamp D in
  if Before r lastTimestamp then Add r D else r.

(** The planner's alignment as the specification words it: the floor of the
    instant to a multiple of the window duration. *)
Definition alignedStart (D : Duration) (t : Z) : Z := (t / D) * D.

(** ** The data of the archiver *)

(** A decoded attribute value: what an [interface{}] of a [Values] map
    holds, and the document tree that [encoding/json] writes. A number is
    kept as its literal. *)
Inductive json : Type :=
| JNull
| JBool (b : bool)
| JNumber (literal : string)
| JString (s : string)
| JArray (items : list json)
| JObject (fields : list (string * json)).

(** The request of the Lambda. *)
Record Event : Type := mkEvent { Name : string }.

(** One sample of a monitor. [Values] is a Go map: [None] is the nil map,
    which is what decoding leaves when the item has no such attribute, and
    [Some fields] lists the entries of a map in the order [encoding/json]
    writes them (ascending by key). *)
Record MonitorData : Type := mkMonitorData {
  MonitorId : string;
  Timestamp : string;
  OrgId : string;
  Values : option (list (string * json))
}.

Record Entry : Type := mkEntry {
  entryTimestamp : string;
  entryValues : option (list (string * json))
}.

Record CompiledMonitorData : Type := mkCompiledMonitorData {
  compiledMonitorId : string;
  compiledOrgId : string;
  StartTime : string;
  Entries : list Entry
}.

(** [encoding/json] on a map of values: [null] for the nil map, an object
    with the entries of the map otherwise. *)
Definition marshalValues (values : option (list (string * json))) : json :=
  match values with
  | None => JNull
  | Some fields => JObject fields
  end.

(** [json.MarshalIndent] of the two structs, as the document tree it
    renders: one object member per field, in declaration order, named by
    the field's [json] tag. The tag of [Entry.Values] is [monitorId]. *)
Definition marshalEntry (e : Entry) : json :=
  JObject [("timestamp", JString (entryTimestamp e));
           ("monitorId", marshalValues (entryValues e))].

Definition marshalCompiledMonitorData (c : CompiledMonitorData) : json :=
  JObject [("monitorId", JString (compiledMonitorId c));
           ("orgId", JString (compiledOrgId c));
           ("startTime", JString (StartTime c));
           ("entries", JArray (map marshalEntry (Entries c)))].

(** ** The collaborators *)

Record PutObjectInput : Type := mkPutObjectInput {
  Bucket : string;
  Key : string;
  Body : json
}.

(** The S3 client: [PutObject] answers a request with an error or with
    none. *)
Definition S3Client : Type := PutObjectInput -> option string.

(** What [fetchAllMonitorData] returns: the scanned items and no error, or
    a nil slice and the error of the scan. *)
Inductive Fetched : Type :=
| FetchOk (items : list MonitorData)
| FetchError (err : string).

(** What a run does to the outside world, in the order of the model: the
    goroutines of the source are run in the order they are started. *)
Inductive effect : Type :=
| LogStarting
| CallPutObject (input : PutObjectInput)
| LogUploadError (err : string)
| LogArchived (orgId monitorId : string) (slotStartTime : Time)
| PrintStartEnd (roundedDownStartTime roundedUpEndTime : Time).

(** ** [sort.Slice]

    The library promises a permutation of the slice that is in order for
    the comparison, and no stability. The archiver is verified against
    that contract; [insertionSort] below is the algorithm the library runs
    on short slices, and an instance of it. *)
Class SliceSorter : Type := {
  sort_Slice : forall {A : Type}, (A -> A -> bool) -> list A -> list A;
  sort_Slice_Permutation :
    forall (A : Type) (less : A -> A -> bool) (x : list A),
      sort_Slice less x ≡ₚ x;
  sort_Slice_Sorted :
    forall (A : Type) (less : A -> A -> bool),
      (forall a b, less a b = true -> less b a = false) ->
      (forall a b c, less a b = false -> less b c = false -> less a c = false) ->
      forall x : list A,
        StronglySorted (fun a b => less b a = false) (sort_Slice less x)
}.

(** [insertionSortLessFunc]: element [i] moves left while it is less than
    its left neighbour. [sortedRev] is the prefix already in order, held in
    reverse. *)
Fixpoint insertLeft {A : Type} (less : A -> A -> bool) (x : A) (sortedRev : list A)
  : list A :=
  match sortedRev with
  | [] => [x]
  | y :: rest => if less x y then y :: insertLeft less x rest else x :: sortedRev
  end.

Definition insertionSort {A : Type} (less : A -> A -> bool) (x : list A) : list A :=
  rev (fold_left (fun sortedRev a => insertLeft less a sortedRev) x []).

(** ** The archiver

    The functions take the duration of a file as a parameter [D]; the
    source runs them at the constant [FILE_DURATION]. *)

(** [t, _ := time.Parse(time.RFC3339, data.Timestamp)]: the zero time stands
    in for a timestamp that does not parse. *)
Definition parsedTimestamp (data : MonitorData) : Time :=
  match Parse (Timestamp data) with
  | Some t => t
  | None => zeroTime
  end.

(** The comparison handed to [sort.Slice]. *)
Definition lessTimestamp (a b : MonitorData) : bool :=
  Before (parsedTimestamp a) (parsedTimestamp b).

Definition filename (orgId monitorId : string) (slotStartTime : Time) : string :=
  orgId +:+ "/" +:+ monitorId +:+ "/" +:+ Format slotStartTime +:+ "-data.json".

Definition compileAndStoreinS3 (client : S3Client)
    (splitDataArray : list MonitorData) (slotStartTime : Time) : list effect :=
  match splitDataArray with
  | [] => []
  | first :: _ =>
      let orgId := OrgId first in
      let monitorId := MonitorId first in
      let entries :=
        map (fun data => mkEntry (Timestamp data) (Values data)) splitDataArray in
      let compileMonitorData :=
        mkCompiledMonitorData monitorId orgId (Format slotStartTime) entries in
      let manifestJson := marshalCompiledMonitorData compileMonitorData in
      let input :=
        mkPutObjectInput BUCKET_NAME (filename orgId monitorId slotStartTime)
                         manifestJson in
      match client input with
      | Some err => [CallPutObject input; LogUploadError err]
      | None => [CallPutObject input; LogArchived orgId monitorId slotStartTime]
      end
  end.

(** One time slot of the loop of [compileMonitorData]. *)
Record Slot : Type := mkSlot {
  slotStartTime : Time;
  slotSplitTime : Time;
  splitDataArray : list MonitorData
}.

(** The records of the slot that ends at [splitTime]: those strictly after
    its start and strictly before its end. *)
Definition splitData (D : Duration) (dataArray : list MonitorData)
    (splitTime : Time) : list MonitorData :=
  List.filter (fun data =>
                 After (parsedTimestamp data) (Add splitTime (- D))
                 && Before (parsedTimestamp data) splitTime)
              dataArray.

(** The loop [for !splitTime.After(roundedUpEndTime)], one unit of fuel per
    test of its condition; [None] when the fuel runs out before the loop
    ends. *)
Fixpoint slotLoop (fuel : nat) (D : Duration) (dataArray : list MonitorData)
    (roundedUpEndTime splitTime : Time) : option (list Slot) :=
  match fuel with
  | O => None
  | S fuel' =>
      if After splitTime roundedUpEndTime then Some []
      else
        let slot := mkSlot (Add splitTime (- D)) splitTime
                           (splitData D dataArray splitTime) in
        cons slot <$> slotLoop fuel' D dataArray roundedUpEndTime (Add splitTime D)
  end.

(** The tests the loop makes between two bounds. *)
Definition slotFuel (D : Duration) (roundedUpEndTime splitTime : Time) : nat :=
  S (Z.to_nat ((abs roundedUpEndTime - abs splitTime) / D + 1)).

Section Archiver.

Context `{SliceSorter}.

(** The two bounds of the loop, from the first and the last element of the
    sorted slice; [None] when the slice is empty and indexing it panics. *)
Definition bounds (D : Duration) (dataArray : list MonitorData)
  : option (Time * Time) :=
  match dataArray with
  | [] => None
  | first :: _ =>
      let firstTimestamp := parsedTimestamp first in
      let lastTimestamp := parsedTimestamp (List.last dataArray first) in
      Some (roundedDownStartTime D firstTimestamp,
            roundedUpEndTime D lastTimestamp)
  end.

(** The slots [compileMonitorData] goes through for a slice: [None] when
    the slice is empty or the loop does not end. *)
Definition slots (D : Duration) (dataArray : list MonitorData)
  : option (list Slot) :=
  let dataArray := sort_Slice lessTimestamp dataArray in
  '(roundedDownStartTime, roundedUpEndTime) ← bounds D dataArray;
  let splitTime := Add roundedDownStartTime D in
  slotLoop (slotFuel D roundedUpEndTime splitTime) D dataArray
           roundedUpEndTime splitTime.

Definition compileMonitorData (D : Duration) (dataArray : list MonitorData)
    (client : S3Client) : option (list effect) :=
  '(roundedDownStartTime, roundedUpEndTime) ←
    bounds D (sort_Slice lessTimestamp dataArray);
  ss ← slots D dataArray;
  Some (concat (map (fun s => compileAndStoreinS3 client (splitDataArray s)
                                                  (slotStartTime s)) ss)
        ++ [PrintStartEnd roundedDownStartTime roundedUpEndTime]).

(** The grouping loop of [HandleRequest]:
    [monitorDataMap[data.MonitorId] = append(monitorDataMap[data.MonitorId], data)]. *)
Definition groupByMonitor (allMonitorData : list MonitorData)
  : gmap string (list MonitorData) :=
  fold_left (fun monitorDataMap data =>
               <[MonitorId data :=
                   default [] (monitorDataMap !! MonitorId data) ++ [data]]>
                 monitorDataMap)
            allMonitorData ∅.

(** [HandleRequest] with the SDK configuration loaded: the effects of the
    run and the pair it returns. The error of the fetch is assigned and not
    looked at. The order in which the monitors are visited is the map's. *)
Definition HandleRequest (D : Duration) (event : Event) (fetched : Fetched)
    (client : S3Client) : option (list effect * (string * option string)) :=
  let allMonitorData :=
    match fetched with FetchOk items => items | FetchError _ => [] end in
  let monitorDataMap := groupByMonitor allMonitorData in
  traces ← mapM (fun '(_, dataArray) => compileMonitorData D dataArray client)
                (map_to_list monitorDataMap);
  Some (LogStarting :: concat traces, ("Hello " +:+ Name event, None)).

End Archiver.

(** ** Notions the statements are written with *)

(** The boundary at or after an instant: the instant itself when it is a
    multiple of [D], otherwise the next multiple. *)
Definition alignedEnd (D : Duration) (t : Z) : Z :=
  if t mod D =? 0 then t else alignedStart D t + D.

Definition aligned (D : Duration) (t : Z) : Prop := t mod D = 0.

(** The instant of a record, as the archiver reads it. *)
Definition instant (data : MonitorData) : Z := abs (parsedTimestamp data).

(** [lo] is the least and [hi] the greatest instant of a slice. *)
Definition leastInstant (lo : Z) (dataArray : list MonitorData) : Prop :=
  (exists r, In r dataArray /\ instant r = lo)
  /\ forall r, In r dataArray -> lo <= instant r.

Definition greatestInstant (hi : Z) (dataArray : list MonitorData) : Prop :=
  (exists r, In r dataArray /\ instant r = hi)
  /\ forall r, In r dataArray -> instant r <= hi.

(** The [n] slots that follow one another from [splitTime]. *)
Fixpoint slotList (n : nat) (D : Duration) (dataArray : list MonitorData)
    (splitTime : Time) : list Slot :=
  match n with
  | O => []
  | S n' =>
      mkSlot (Add splitTime (- D)) splitTime (splitData D dataArray splitTime)
      :: slotList n' D dataArray (Add splitTime D)
  end.

(** The number of passes of the loop from a first [splitTime]. *)
Definition slotCount (D : Duration) (roundedUpEndTime splitTime : Time) : nat :=
  Z.to_nat ((abs roundedUpEndTime - abs splitTime) / D + 1).

(** The calls of [PutObject] in a run. *)
Definition calls (trace : list effect) : list PutObjectInput :=
  omap (fun e => match e with CallPutObject input => Some input | _ => None end)
       trace.

(** A failed call is followed by its log line, in a trace. *)
Definition failuresLogged (client : S3Client) (trace : list effect) : Prop :=
  forall input err,
    In (CallPutObject input) trace -> client input = Some err ->
    In (LogUploadError err) trace.

(** What a slot looks like from outside: its two bounds as [Format] prints
    them, and the timestamps of its records in order. *)
Definition showSlot (s : Slot) : string * string * list string :=
  (Format (slotStartTime s), Format (slotSplitTime s),
   map Timestamp (splitDataArray s)).


Definition member (name : string) (j : json) : option json :=
  match j with
  | JObject fields =>
      snd <$> List.find (fun field => String.eqb (fst field) name) fields
  | _ => None
  end.

(** The entry [compileAndStoreinS3] makes of a record. *)
Definition entryOf (data : MonitorData) : Entry :=
  mkEntry (Timestamp data) (Values data).

Fixpoint noSlash (s : string) : bool :=
  match s with
  | EmptyString => true
  | String c rest => negb (Ascii.eqb c "/") && noSlash rest
  end.

Definition twoDigits (n : Z) : string :=
  String (digitChar (n / 10)) (String (digitChar (n mod 10)) "").

Definition fourDigits (n : Z) : string :=
  String (digitChar (n / 1000))
    (String (digitChar (n / 100 mod 10))
       (String (digitChar (n / 10 mod 10)) (String (digitChar (n mod 10)) ""))).

(** The civil date and the time of day of a [Time] in its location. *)
Definition clock (t : Time) : Z * Z * Z * Z * Z * Z :=
  let secs := abs t / Second + zone t in
  let '(year, month, day) := daysToDate (secs / 86400) in
  let sod := secs mod 86400 in
  (year, month, day, sod / 3600, sod mod 3600 / 60, sod mod 60).

(** What [Format] prints without loss: a whole second, in a location a
    whole number of minutes from UTC, in a year of four digits. The start
    of a slot is of this kind as soon as its year is
    ([slots_start_printable]). *)
Definition printable (t : Time) : bool :=
  (abs t mod Second =? 0) && (zone t mod 60 =? 0)
  && (-360000 <? zone t) && (zone t <? 360000)
  && (let '(year, _, _, _, _, _) := clock t in (0 <=? year) && (year <? 10000)).

(** A check of [f] on the [n] integers from [z] on. *)
Fixpoint allFrom (f : Z -> bool) (n : nat) (z : Z) : bool :=
  match n with
  | O => true
  | S n' => f z && allFrom f n' (z + 1)
  end.

(** [eraDate] gives a date in range from which [eraDay] gives the day
    back, checked on each day of an era. *)
Definition eraCheck (doe : Z) : bool :=
  let '(yoe, month, day) := eraDate doe in
  (0 <=? yoe) && (yoe <? 400) && (1 <=? month) && (month <=? 12)
  && (1 <=? day) && (day <=? 31) && (eraDay yoe month day =? doe).

(** ** The inputs of the worked examples *)

(** A sample of monitor [m1] of organisation [org1]. *)
Definition sample (timestamp : string) : MonitorData :=
  mkMonitorData "m1" timestamp "org1" (Some [("cpu", JNumber "1")]).

Definition acceptAll : S3Client := fun _ => None.
Definition rejectAll : S3Client := fun _ => Some "quota exceeded".

(** Two records of monitor [m1] with one timestamp and different values. *)
Definition tie1 : MonitorData :=
  mkMonitorData "m1" "2023-03-01T10:02:30Z" "org1" (Some [("cpu", JNumber "1")]).
Definition tie2 : MonitorData :=
  mkMonitorData "m1" "2023-03-01T10:02:30Z" "org1" (Some [("cpu", JNumber "2")]).

(** ** The rest of the program *)

(** The grouping loop of [HandleRequest] over any record and key:
    [m[key(a)] = append(m[key(a)], a)] for each [a] in turn. *)
Definition groupByKey {A : Type} (key : A -> string) (l : list A)
  : gmap string (list A) :=
  fold_left (fun m a => <[key a := default [] (m !! key a) ++ [a]]> m) l ∅.

(** *** [fetchAllMonitorData]

    The filter expression, the scan and the decoding of an item belong to
    the SDK: the error of [Build] if any, what [Scan] answers and
    [attributevalue.UnmarshalMap] are taken as they come. *)

Inductive ScanOutput (Item : Type) : Type :=
| ScanOk (Items : list Item)
| ScanError (err : string).

Arguments ScanOk {Item} Items.
Arguments ScanError {Item} err.

Section Fetch.

Context {Item : Type}.
Variable UnmarshalMap : Item -> MonitorData + string.

(** The loop over [out.Items]: the first item that does not decode ends
    the function with its error and a nil slice. *)
Fixpoint unmarshalItems (items : list Item) (result : list MonitorData)
  : Fetched :=
  match items with
  | [] => FetchOk result
  | item :: rest =>
      match UnmarshalMap item with
      | inr err => FetchError err
      | inl monitorData => unmarshalItems rest (result ++ [monitorData])
      end
  end.

Definition fetchAllMonitorData (buildErr : option string)
    (out : ScanOutput Item) : Fetched :=
  match buildErr with
  | Some err => FetchError err
  | None =>
      match out with
      | ScanError err => FetchError err
      | ScanOk items => unmarshalItems items []
      end
  end.

End Fetch.

(** *** The first version of the handler ([main.go])

    It groups the records by alert, starts one goroutine per group and
    waits for the wait group. [compileMonitorData] there has an empty body
    and is not given the wait group. *)

Module main_go.

Record MonitorData : Type := mkMonitorData {
  AlertId : string;
  TimeStamp : string;
  OrgId : string;
  Values : option (list (string * json))
}.

Inductive Fetched : Type :=
| FetchOk (items : list MonitorData)
| FetchError (err : string).

(** How a call of the handler ends: it returns its pair, or it stays in
    [wg.Wait()]. *)
Inductive outcome : Type :=
| Returns (result : string * option string)
| WaitsForever.

(** [compileMonitorData(dataArray)]: nothing, hence no [wg.Done()]. *)
Definition compileMonitorData (dataArray : list MonitorData) : unit := tt.

(** The counter of the wait group after the loop over the map: one
    [wg.Add(1)] per group, and what the goroutines take off it. *)
Definition waitGroupCounter (monitorDataMap : gmap string (list MonitorData)) : Z :=
  fold_left (fun wg '(_, dataArray) =>
               let '_ := compileMonitorData dataArray in wg + 1)
            (map_to_list monitorDataMap) 0.

Definition HandleRequest (event : Event) (fetched : Fetched) : outcome :=
  let allMonitorData :=
    match fetched with FetchOk items => items | FetchError _ => [] end in
  let monitorDataMap := groupByKey AlertId allMonitorData in
  if waitGroupCounter monitorDataMap =? 0
  then Returns ("Hello " +:+ Name event, None)
  else WaitsForever.

End main_go.

(** *** Notions for the further properties *)

(** The records of a monitor, in the order they came in. *)
Definition recordsOf (monitorId : string) (l : list MonitorData)
  : list MonitorData :=
  List.filter (fun data => String.eqb (MonitorId data) monitorId) l.

(** Whether the instant of a record is off the boundaries of [D]. *)
Definition offBoundary (D : Duration) (data : MonitorData) : bool :=
  negb (instant data mod D =? 0).

(** The number of entries of the artifact of a request. *)
Definition entryCount (input : PutObjectInput) : nat :=
  match member "entries" (Body input) with
  | Some (JArray items) => length items
  | _ => 0%nat
  end.

(** The number of slots, among [n] from [splitTime] on, an instant is
    strictly inside of. *)
Fixpoint hits (n : nat) (D : Duration) (splitTime t : Z) : nat :=
  match n with
  | O => O
  | S n' =>
      let hit := (splitTime - D <? t) && (t <? splitTime) in
      ((if hit then 1 else 0) + hits n' D (splitTime + D) t)%nat
  end.

(** ** The insertion sort meets the contract of [sort.Slice] *)

Section InsertionSort.

Context {A : Type} (less : A -> A -> bool).
Hypothesis less_asym : forall a b, less a b = true -> less b a = false.
Hypothesis notless_trans :
  forall a b c, less a b = false -> less b c = false -> less a c = false.

Lemma insertLeft_Permutation (x : A) (l : list A) :
  insertLeft less x l ≡ₚ x :: l.
Proof.
  induction l as [|y l IH]; simpl; [reflexivity|].
  destruct (less x y); [|reflexivity].
  rewrite IH. apply Permutation_swap.
Qed.

Lemma insertLeft_Sorted (x : A) (l : list A) :
  StronglySorted (fun a b => less a b = false) l ->
  StronglySorted (fun a b => less a b = false) (insertLeft less x l).
Proof.
  induction l as [|y l IH]; simpl; intros Hs.
  - repeat constructor.
  - apply StronglySorted_cons in Hs as [Hy Hl].
    destruct (less x y) eqn:Hxy.
    + apply StronglySorted_cons. split; [|auto].
      rewrite (insertLeft_Permutation x l). constructor; auto.
    + apply StronglySorted_cons. split.
      * constructor; [exact Hxy|].
        eapply Forall_impl; [exact Hy|]. simpl. intros z Hz. eauto.
      * apply StronglySorted_cons. auto.
Qed.

Lemma fold_insertLeft_Permutation (x acc : list A) :
  fold_left (fun sortedRev a => insertLeft less a sortedRev) x acc ≡ₚ x ++ acc.
Proof.
  revert acc. induction x as [|a x IH]; intros acc; simpl; [reflexivity|].
  rewrite IH, insertLeft_Permutation. symmetry. apply Permutation_middle.
Qed.

Lemma fold_insertLeft_Sorted (x acc : list A) :
  StronglySorted (fun a b => less a b = false) acc ->
  StronglySorted (fun a b => less a b = false)
    (fold_left (fun sortedRev a => insertLeft less a sortedRev) x acc).
Proof.
  revert acc. induction x as [|a x IH]; intros acc Hs; simpl; [exact Hs|].
  apply IH, insertLeft_Sorted, Hs.
Qed.

Lemma StronglySorted_rev (R : A -> A -> Prop) (l : list A) :
  StronglySorted R l -> StronglySorted (fun a b => R b a) (rev l).
Proof.
  induction 1 as [|a l Hl IH Ha]; simpl; [constructor|].
  apply StronglySorted_app. split; [|split].
  - intros x1 x2 H1 H2. apply list_elem_of_In, in_rev in H1.
    apply list_elem_of_singleton in H2. subst x2.
    rewrite Forall_forall in Ha. apply Ha, list_elem_of_In, H1.
  - exact IH.
  - repeat constructor.
Qed.

Lemma insertionSort_Permutation (x : list A) : insertionSort less x ≡ₚ x.
Proof.
  unfold insertionSort. rewrite <- Permutation_rev.
  rewrite fold_insertLeft_Permutation. rewrite app_nil_r. reflexivity.
Qed.

Lemma insertionSort_Sorted (x : list A) :
  StronglySorted (fun a b => less b a = false) (insertionSort less x).
Proof.
  unfold insertionSort.
  apply (StronglySorted_rev (fun a b => less a b = false)).
  apply fold_insertLeft_Sorted. constructor.
Qed.

End InsertionSort.

#[export] Instance insertionSorter : SliceSorter := {|
  sort_Slice := @insertionSort;
  sort_Slice_Permutation := @insertionSort_Permutation;
  sort_Slice_Sorted := @insertionSort_Sorted
|}.

(** ** The window arithmetic *)

Lemma Round_floor_or_next (D : Duration) (t : Time) :
  0 < D ->
  abs (Round t D) = alignedStart D (abs t) \/
  (abs (Round t D) = alignedStart D (abs t) + D /\ alignedStart D (abs t) < abs t).
Proof.
  intros HD. unfold Round, alignedStart.
  destruct (Z.leb_spec D 0) as [Hle|_]; [lia|].
  pose proof (Z.mod_pos_bound (abs t) D HD) as Hr.
  pose proof (Z.div_mod (abs t) D ltac:(lia)) as Hdm.
  destruct (Z.ltb_spec (abs t mod D + abs t mod D) D) as [Hlt|Hge]; simpl.
  - left. lia.
  - right. lia.
Qed.

Lemma roundedDownStartTime_abs (D : Duration) (t : Time) :
  0 < D -> abs (roundedDownStartTime D t) = alignedStart D (abs t).
Proof.
  intros HD. unfold roundedDownStartTime, After.
  pose proof (Z.mod_pos_bound (abs t) D HD) as Hr.
  pose proof (Z.div_mod (abs t) D ltac:(lia)) as Hdm.
  destruct (Round_floor_or_next D t HD) as [E|[E Hlt]]; rewrite E;
    unfold alignedStart in *;
    destruct (Z.ltb_spec (abs t) (abs t / D * D)) as [H1|H1];
    destruct (Z.ltb_spec (abs t) (abs t / D * D + D)) as [H2|H2];
    simpl; try rewrite E; lia.
Qed.

Lemma roundedDownStartTime_zone (D : Duration) (t : Time) :
  zone (roundedDownStartTime D t) = zone t.
Proof.
  unfold roundedDownStartTime, Round, Add.
  repeat match goal with |- context [if ?b then _ else _] => destruct b end;
    reflexivity.
Qed.

Lemma alignedStart_aligned (D : Duration) (t : Z) :
  0 < D -> aligned D (alignedStart D t).
Proof. intros HD. unfold aligned, alignedStart. apply Z_mod_mult. Qed.

Lemma alignedStart_bounds (D : Duration) (t : Z) :
  0 < D -> alignedStart D t <= t < alignedStart D t + D.
Proof.
  intros HD. unfold alignedStart.
  pose proof (Z.mod_pos_bound t D HD). pose proof (Z.div_mod t D ltac:(lia)). lia.
Qed.

Lemma alignedStart_fixed (D : Duration) (t : Z) :
  0 < D -> aligned D t -> alignedStart D t = t.
Proof.
  unfold aligned, alignedStart. intros HD Hm.
  pose proof (Z.div_mod t D ltac:(lia)). lia.
Qed.

Lemma alignedStart_mono (D : Duration) (t u : Z) :
  0 < D -> t <= u -> alignedStart D t <= alignedStart D u.
Proof.
  intros HD Hle. unfold alignedStart.
  apply Z.mul_le_mono_nonneg_r; [lia|]. apply Z.div_le_mono; lia.
Qed.

Lemma alignedStart_greatest (D : Duration) (t b : Z) :
  0 < D -> aligned D b -> b <= t -> b <= alignedStart D t.
Proof.
  intros HD Hb Hle. rewrite <- (alignedStart_fixed D b HD Hb).
  apply alignedStart_mono; assumption.
Qed.

Lemma aligned_add (D : Duration) (t k : Z) :
  0 < D -> aligned D t -> aligned D (t + k * D).
Proof. unfold aligned. intros HD Ht. rewrite Z.mod_add by lia. exact Ht. Qed.

(** No multiple of [D] lies strictly between two neighbouring ones. *)
Lemma aligned_gap (D : Duration) (b t : Z) :
  0 < D -> aligned D b -> aligned D t -> b < t < b + D -> False.
Proof.
  unfold aligned. intros HD Hb Ht Hlt.
  pose proof (Z.div_mod b D ltac:(lia)). pose proof (Z.div_mod t D ltac:(lia)).
  assert (b / D < t / D) by nia. assert (t / D < b / D + 1) by nia. lia.
Qed.

Lemma alignedEnd_aligned (D : Duration) (t : Z) :
  0 < D -> aligned D (alignedEnd D t).
Proof.
  intros HD. unfold alignedEnd. destruct (Z.eqb_spec (t mod D) 0) as [E|E].
  - exact E.
  - replace (alignedStart D t + D) with (alignedStart D t + 1 * D) by lia.
    apply aligned_add, alignedStart_aligned; assumption.
Qed.

Lemma alignedEnd_bounds (D : Duration) (t : Z) :
  0 < D -> t <= alignedEnd D t < t + D.
Proof.
  intros HD. unfold alignedEnd. pose proof (alignedStart_bounds D t HD).
  assert (t mod D = t - alignedStart D t).
  { unfold alignedStart. pose proof (Z.div_mod t D ltac:(lia)). lia. }
  destruct (Z.eqb_spec (t mod D) 0); lia.
Qed.

Lemma roundedUpEndTime_abs (D : Duration) (t : Time) :
  0 < D -> abs (roundedUpEndTime D t) = alignedEnd D (abs t).
Proof.
  intros HD. unfold roundedUpEndTime, Before, alignedEnd.
  pose proof (alignedStart_bounds D (abs t) HD) as Hb.
  assert (Hm : abs t mod D = abs t - alignedStart D (abs t)).
  { unfold alignedStart. pose proof (Z.div_mod (abs t) D ltac:(lia)). lia. }
  destruct (Round_floor_or_next D t HD) as [E|[E Hlt]]; rewrite E.
  - destruct (Z.ltb_spec (alignedStart D (abs t)) (abs t));
      destruct (Z.eqb_spec (abs t mod D) 0); simpl; rewrite ?E; lia.
  - destruct (Z.ltb_spec (alignedStart D (abs t) + D) (abs t));
      destruct (Z.eqb_spec (abs t mod D) 0); simpl; rewrite ?E; lia.
Qed.

Lemma roundedUpEndTime_zone (D : Duration) (t : Time) :
  zone (roundedUpEndTime D t) = zone t.
Proof.
  unfold roundedUpEndTime, Round, Add.
  repeat match goal with |- context [if ?b then _ else _] => destruct b end;
    reflexivity.
Qed.

(** The Unix epoch is a multiple of five minutes after the zero time, so the
    boundaries of the archiver are the same counted from either. *)
Lemma unixEpoch_aligned : aligned FILE_DURATION (62135596800 * Second).
Proof. reflexivity. Qed.

(** ** The loop of [compileMonitorData] ends, and what it goes through *)

Lemma slotLoop_slotList (D : Duration) (dataArray : list MonitorData)
    (e : Time) (fuel : nat) :
  0 < D ->
  forall splitTime,
    (slotCount D e splitTime < fuel)%nat ->
    slotLoop fuel D dataArray e splitTime
    = Some (slotList (slotCount D e splitTime) D dataArray splitTime).
Proof.
  intros HD. induction fuel as [|fuel IH]; intros sp Hf; [lia|].
  simpl. unfold After, slotCount in *.
  destruct (Z.ltb_spec (abs e) (abs sp)) as [Hlt|Hle].
  - assert ((abs e - abs sp) / D < 0) by (apply Z.div_lt_upper_bound; lia).
    replace (Z.to_nat ((abs e - abs sp) / D + 1)) with O by lia. reflexivity.
  - assert (Hq : (abs e - abs (Add sp D)) / D = (abs e - abs sp) / D - 1).
    { simpl. replace (abs e - (abs sp + D)) with (abs e - abs sp + (-1) * D) by lia.
      rewrite Z.div_add by lia. lia. }
    assert (0 <= (abs e - abs sp) / D) by (apply Z.div_pos; lia).
    assert (Hn : Z.to_nat ((abs e - abs sp) / D + 1)
                 = S (Z.to_nat ((abs e - abs (Add sp D)) / D + 1))).
    { rewrite Hq. lia. }
    rewrite IH by lia. rewrite Hn. reflexivity.
Qed.

Lemma slotList_length (n : nat) (D : Duration) (dataArray : list MonitorData)
    (splitTime : Time) :
  length (slotList n D dataArray splitTime) = n.
Proof.
  revert splitTime. induction n as [|n IH]; intros sp; simpl; [reflexivity|].
  rewrite IH. reflexivity.
Qed.

Lemma Add_0 (t : Time) : Add t 0 = t.
Proof. destruct t as [a z]. unfold Add. simpl. f_equal. lia. Qed.

Lemma Add_Add (t : Time) (d e : Duration) : Add (Add t d) e = Add t (d + e).
Proof. unfold Add. simpl. f_equal. lia. Qed.

(** The [k]-th slot starts [k] durations after the first. *)
Lemma slotList_lookup (n : nat) (D : Duration) (dataArray : list MonitorData)
    (splitTime : Time) (k : nat) :
  (k < n)%nat ->
  slotList n D dataArray splitTime !! k
  = Some (mkSlot (Add splitTime (Z.of_nat k * D - D))
                 (Add splitTime (Z.of_nat k * D))
                 (splitData D dataArray (Add splitTime (Z.of_nat k * D)))).
Proof.
  revert splitTime k. induction n as [|n IH]; intros sp k Hk; [lia|].
  destruct k as [|k].
  - cbn [slotList lookup list_lookup].
    replace (Z.of_nat 0 * D - D) with (- D) by lia.
    replace (Z.of_nat 0 * D) with 0 by lia.
    rewrite (Add_0 sp). reflexivity.
  - cbn [slotList lookup list_lookup]. rewrite IH by lia. rewrite !Add_Add.
    replace (D + (Z.of_nat k * D - D)) with (Z.of_nat (S k) * D - D) by lia.
    replace (D + Z.of_nat k * D) with (Z.of_nat (S k) * D) by lia.
    reflexivity.
Qed.

(** ** The sorted slice and the bounds taken from it *)

Lemma lessTimestamp_asym (a b : MonitorData) :
  lessTimestamp a b = true -> lessTimestamp b a = false.
Proof. unfold lessTimestamp, Before. lia. Qed.

Lemma lessTimestamp_notless_trans (a b c : MonitorData) :
  lessTimestamp a b = false -> lessTimestamp b c = false ->
  lessTimestamp a c = false.
Proof. unfold lessTimestamp, Before. lia. Qed.

Section Sorted.

Context `{SliceSorter}.

Lemma sorted_Permutation (dataArray : list MonitorData) :
  sort_Slice lessTimestamp dataArray ≡ₚ dataArray.
Proof. apply sort_Slice_Permutation. Qed.

Lemma sorted_In (dataArray : list MonitorData) (r : MonitorData) :
  In r (sort_Slice lessTimestamp dataArray) <-> In r dataArray.
Proof.
  split; apply Permutation_in;
    [apply sorted_Permutation | symmetry; apply sorted_Permutation].
Qed.

Lemma sorted_ascending (dataArray : list MonitorData) :
  StronglySorted (fun a b => instant a <= instant b)
                 (sort_Slice lessTimestamp dataArray).
Proof.
  pose proof (sort_Slice_Sorted MonitorData lessTimestamp
                lessTimestamp_asym lessTimestamp_notless_trans dataArray) as Hs.
  induction Hs as [|a l Hl IH Ha]; constructor; [exact IH|].
  eapply Forall_impl; [exact Ha|]. simpl. intros b.
  unfold lessTimestamp, Before, instant. lia.
Qed.

Lemma StronglySorted_first_least (first : MonitorData) (rest : list MonitorData) :
  StronglySorted (fun a b => instant a <= instant b) (first :: rest) ->
  forall r, In r (first :: rest) -> instant first <= instant r.
Proof.
  intros Hs r [->|Hr]; [lia|].
  apply StronglySorted_cons in Hs as [Ha _].
  rewrite Forall_forall in Ha. apply Ha, list_elem_of_In, Hr.
Qed.

Lemma StronglySorted_last_greatest (l : list MonitorData) (d : MonitorData) :
  StronglySorted (fun a b => instant a <= instant b) l ->
  forall r, In r l -> instant r <= instant (List.last l d).
Proof.
  induction 1 as [|a l Hl IH Ha]; intros r Hr; [destruct Hr|].
  destruct l as [|b l].
  - destruct Hr as [->|[]]. simpl. lia.
  - change (List.last (a :: b :: l) d) with (List.last (b :: l) d).
    destruct Hr as [->|Hr]; [|apply IH, Hr].
    rewrite Forall_forall in Ha.
    transitivity (instant b); [apply Ha; left|apply IH; left; reflexivity].
Qed.

Lemma last_In (l : list MonitorData) (a d : MonitorData) :
  In (List.last (a :: l) d) (a :: l).
Proof.
  revert a. induction l as [|b l IH]; intros a; [left; reflexivity|].
  right. apply (IH b).
Qed.

(** On a non-empty slice the bounds are the floor of the least instant and
    the boundary at or after the greatest one. *)
Lemma bounds_sorted (D : Duration) (dataArray : list MonitorData) :
  0 < D -> dataArray <> [] ->
  exists lo hi roundedDown roundedUp,
    leastInstant lo dataArray /\ greatestInstant hi dataArray
    /\ bounds D (sort_Slice lessTimestamp dataArray) = Some (roundedDown, roundedUp)
    /\ abs roundedDown = alignedStart D lo
    /\ abs roundedUp = alignedEnd D hi.
Proof.
  intros HD Hne.
  pose proof (sorted_ascending dataArray) as Hs.
  pose proof (sorted_In dataArray) as Hin.
  destruct (sort_Slice lessTimestamp dataArray) as [|first rest] eqn:E.
  - destruct dataArray as [|r l]; [congruence|].
    destruct (proj2 (Hin r)). left; reflexivity.
  - exists (instant first), (instant (List.last (first :: rest) first)).
    eexists _, _. repeat split.
    + exists first. split; [apply Hin; left|]; reflexivity.
    + intros r Hr. apply (StronglySorted_first_least first rest Hs), Hin, Hr.
    + exists (List.last (first :: rest) first). split; [|reflexivity].
      apply Hin, last_In.
    + intros r Hr. apply (StronglySorted_last_greatest _ first Hs), Hin, Hr.
    + apply roundedDownStartTime_abs, HD.
    + apply roundedUpEndTime_abs, HD.
Qed.

Lemma leastInstant_unique (lo lo' : Z) (l : list MonitorData) :
  leastInstant lo l -> leastInstant lo' l -> lo = lo'.
Proof.
  intros [[r [Hr Er]] Hlo] [[r' [Hr' Er']] Hlo'].
  specialize (Hlo r' Hr'). specialize (Hlo' r Hr). lia.
Qed.

Lemma greatestInstant_unique (hi hi' : Z) (l : list MonitorData) :
  greatestInstant hi l -> greatestInstant hi' l -> hi = hi'.
Proof.
  intros [[r [Hr Er]] Hhi] [[r' [Hr' Er']] Hhi'].
  specialize (Hhi r' Hr'). specialize (Hhi' r Hr). lia.
Qed.

(** [compileMonitorData] goes through a finite list of slots whenever the
    slice is non-empty and the duration positive: the loop ends before its
    fuel does. The slots are the [(alignedEnd hi - alignedStart lo) / D]
    consecutive ones from the floor of the least instant. *)
Lemma slots_slotList (D : Duration) (dataArray : list MonitorData) (lo hi : Z) :
  0 < D -> leastInstant lo dataArray -> greatestInstant hi dataArray ->
  exists roundedDown,
    abs roundedDown = alignedStart D lo
    /\ slots D dataArray
       = Some (slotList (Z.to_nat ((alignedEnd D hi - alignedStart D lo) / D)) D
                        (sort_Slice lessTimestamp dataArray) (Add roundedDown D)).
Proof.
  intros HD Hlo Hhi.
  assert (Hne : dataArray <> []).
  { destruct Hlo as [[r [Hr _]] _]. intros ->. destruct Hr. }
  destruct (bounds_sorted D dataArray HD Hne)
    as (lo' & hi' & rd & ru & Hlo' & Hhi' & Hb & Hrd & Hru).
  rewrite (leastInstant_unique _ _ _ Hlo' Hlo) in Hrd.
  rewrite (greatestInstant_unique _ _ _ Hhi' Hhi) in Hru.
  exists rd. split; [exact Hrd|].
  unfold slots. rewrite Hb. cbn [mbind option_bind].
  rewrite slotLoop_slotList by (try exact HD; unfold slotFuel, slotCount; lia).
  unfold slotCount. cbn [abs Add]. rewrite Hru, Hrd.
  replace (alignedEnd D hi - (alignedStart D lo + D))
    with (alignedEnd D hi - alignedStart D lo + (-1) * D) by lia.
  rewrite Z.div_add by lia.
  replace ((alignedEnd D hi - alignedStart D lo) / D + -1 + 1)
    with ((alignedEnd D hi - alignedStart D lo) / D) by lia.
  reflexivity.
Qed.

End Sorted.

(** ** Which records a slot receives *)

Lemma splitData_In (D : Duration) (dataArray : list MonitorData)
    (splitTime : Time) (r : MonitorData) :
  In r (splitData D dataArray splitTime)
  <-> In r dataArray /\ abs splitTime - D < instant r < abs splitTime.
Proof.
  unfold splitData. rewrite filter_In, andb_true_iff.
  unfold After, Before, instant, Add. cbn [abs]. rewrite !Z.ltb_lt.
  intuition lia.
Qed.

Lemma slotList_In (n : nat) (D : Duration) (dataArray : list MonitorData)
    (splitTime : Time) (s : Slot) :
  In s (slotList n D dataArray splitTime) ->
  exists k : nat,
    (k < n)%nat
    /\ s = mkSlot (Add splitTime (Z.of_nat k * D - D))
                  (Add splitTime (Z.of_nat k * D))
                  (splitData D dataArray (Add splitTime (Z.of_nat k * D))).
Proof.
  intros Hs. apply list_elem_of_In, list_elem_of_lookup in Hs as [k Hk].
  assert (Hlt : (k < n)%nat).
  { apply lookup_lt_Some in Hk. rewrite slotList_length in Hk. exact Hk. }
  exists k. split; [exact Hlt|].
  rewrite slotList_lookup in Hk by exact Hlt. congruence.
Qed.

Lemma aligned_exists (D : Duration) (x : Z) :
  0 < D -> aligned D x -> exists q, x = q * D.
Proof.
  unfold aligned. intros HD Hx. exists (x / D).
  pose proof (Z.div_mod x D ltac:(lia)). lia.
Qed.

Section Assignment.

Context `{SliceSorter}.

(** The membership rule of the source: a slot receives the records of the
    slice strictly inside it. *)
Lemma slots_bucket (D : Duration) (dataArray : list MonitorData)
    (ss : list Slot) (s : Slot) (r : MonitorData) :
  0 < D -> slots D dataArray = Some ss -> In s ss ->
  (In r (splitDataArray s)
   <-> In r dataArray
       /\ abs (slotStartTime s) < instant r < abs (slotSplitTime s))
  /\ abs (slotSplitTime s) = abs (slotStartTime s) + D.
Proof.
  intros HD Hss Hs.
  destruct dataArray as [|d0 l].
  { unfold slots in Hss.
    pose proof (sorted_Permutation []) as Hp. apply Permutation_nil_r in Hp.
    rewrite Hp in Hss. discriminate. }
  assert (Hlo : exists lo, leastInstant lo (d0 :: l)).
  { destruct (bounds_sorted D (d0 :: l) HD ltac:(discriminate))
      as (lo & _ & _ & _ & Hlo & _). eauto. }
  assert (Hhi : exists hi, greatestInstant hi (d0 :: l)).
  { destruct (bounds_sorted D (d0 :: l) HD ltac:(discriminate))
      as (_ & hi & _ & _ & _ & Hhi & _). eauto. }
  destruct Hlo as [lo Hlo], Hhi as [hi Hhi].
  destruct (slots_slotList D (d0 :: l) lo hi HD Hlo Hhi) as (rd & Hrd & E).
  rewrite E in Hss. injection Hss as <-.
  apply slotList_In in Hs as (k & Hk & ->). cbn [splitDataArray slotStartTime slotSplitTime].
  rewrite splitData_In, sorted_In. cbn [abs Add]. split; [|lia].
  split; intros [? ?]; split; auto; lia.
Qed.

(** A record whose instant is not on a boundary goes to exactly one slot,
    the one that starts at the floor of its instant. *)
Lemma slots_assign_off_boundary (D : Duration) (dataArray : list MonitorData)
    (ss : list Slot) (r : MonitorData) :
  0 < D -> slots D dataArray = Some ss -> In r dataArray ->
  ~ aligned D (instant r) ->
  exists (k : nat) (s : Slot),
    ss !! k = Some s
    /\ In r (splitDataArray s)
    /\ abs (slotStartTime s) = alignedStart D (instant r)
    /\ forall (j : nat) (s' : Slot),
         ss !! j = Some s' -> In r (splitDataArray s') -> j = k.
Proof.
  intros HD Hss Hr Hna.
  assert (Hne : dataArray <> []) by (intros ->; destruct Hr).
  destruct (bounds_sorted D dataArray HD Hne)
    as (lo & hi & _ & _ & Hlo & Hhi & _).
  destruct (slots_slotList D dataArray lo hi HD Hlo Hhi) as (rd & Hrd & E).
  rewrite E in Hss. injection Hss as <-.
  pose proof (proj2 Hlo r Hr) as Hlor. pose proof (proj2 Hhi r Hr) as Hhir.
  pose proof (alignedStart_bounds D (instant r) HD) as Hbr.
  pose proof (alignedStart_mono D lo (instant r) HD Hlor) as Hmono.
  assert (Hstrict : alignedStart D (instant r) < instant r).
  { destruct (Z.eq_dec (alignedStart D (instant r)) (instant r)) as [Eq|Ne].
    - exfalso. apply Hna. rewrite <- Eq. apply alignedStart_aligned, HD.
    - lia. }
  assert (Hend : alignedStart D (instant r) + D <= alignedEnd D hi).
  { unfold alignedEnd. destruct (Z.eqb_spec (hi mod D) 0) as [Ha|Ha].
    - destruct (Z.le_gt_cases (alignedStart D (instant r) + D) hi) as [|Hgt]; [lia|].
      exfalso. apply (aligned_gap D (alignedStart D (instant r)) hi HD);
        [apply alignedStart_aligned, HD | exact Ha | lia].
    - pose proof (alignedStart_mono D (instant r) hi HD Hhir). lia. }
  destruct (aligned_exists D _ HD (alignedStart_aligned D lo HD)) as [ql Eql].
  destruct (aligned_exists D _ HD (alignedStart_aligned D (instant r) HD)) as [qt Eqt].
  destruct (aligned_exists D _ HD (alignedEnd_aligned D hi HD)) as [qh Eqh].
  rewrite Eql, Eqt in Hmono. rewrite Eqt, Eqh in Hend.
  assert (ql <= qt) by nia. assert (qt + 1 <= qh) by nia.
  rewrite Eqh, Eql.
  replace (qh * D - ql * D) with ((qh - ql) * D) by lia.
  rewrite Z.div_mul by lia.
  set (n := Z.to_nat (qh - ql)). set (k := Z.to_nat (qt - ql)).
  assert (Hk : (k < n)%nat) by (subst k n; lia).
  eexists k, _. split; [apply slotList_lookup, Hk|].
  cbn [splitDataArray slotStartTime]. rewrite splitData_In, sorted_In.
  cbn [abs Add]. rewrite Hrd, Eql.
  replace (Z.of_nat k) with (qt - ql) by (subst k; lia).
  split; [split; [exact Hr|lia]|]. split; [lia|].
  intros j s' Hj Hin.
  assert (Hjn : (j < n)%nat).
  { apply lookup_lt_Some in Hj. rewrite slotList_length in Hj. exact Hj. }
  rewrite slotList_lookup in Hj by exact Hjn. injection Hj as <-.
  cbn [splitDataArray] in Hin. rewrite splitData_In in Hin.
  cbn [abs Add] in Hin. rewrite Hrd, Eql in Hin. destruct Hin as [_ Hin].
  assert (Z.of_nat j = qt - ql) by nia. subst k. lia.
Qed.

(** A record whose instant is a multiple of the duration goes to no slot:
    each slot leaves out both of its ends. *)
Lemma slots_drop_boundary (D : Duration) (dataArray : list MonitorData)
    (ss : list Slot) (r : MonitorData) :
  0 < D -> slots D dataArray = Some ss -> aligned D (instant r) ->
  forall s, In s ss -> ~ In r (splitDataArray s).
Proof.
  intros HD Hss Ha s Hs Hin.
  assert (Hne : dataArray <> []).
  { intros ->. unfold slots in Hss.
    pose proof (sorted_Permutation []) as Hp. apply Permutation_nil_r in Hp.
    rewrite Hp in Hss. discriminate. }
  destruct (bounds_sorted D dataArray HD Hne)
    as (lo & hi & _ & _ & Hlo & Hhi & _).
  destruct (slots_slotList D dataArray lo hi HD Hlo Hhi) as (rd & Hrd & E).
  rewrite E in Hss. injection Hss as <-.
  apply slotList_In in Hs as (k & Hk & ->).
  cbn [splitDataArray] in Hin. rewrite splitData_In in Hin.
  cbn [abs Add] in Hin. destruct Hin as [_ Hin].
  apply (aligned_gap D (abs rd + D + Z.of_nat k * D - D) (instant r) HD);
    [|exact Ha|lia].
  replace (abs rd + D + Z.of_nat k * D - D) with (abs rd + Z.of_nat k * D) by lia.
  apply aligned_add; [exact HD|]. rewrite Hrd. apply alignedStart_aligned, HD.
Qed.

End Assignment.

(** ** More on the slots of a run *)

Lemma slotLoop_zone (fuel : nat) (D : Duration) (dataArray : list MonitorData)
    (e splitTime : Time) (ss : list Slot) (s : Slot) :
  slotLoop fuel D dataArray e splitTime = Some ss -> In s ss ->
  zone (slotStartTime s) = zone splitTime.
Proof.
  revert splitTime ss. induction fuel as [|fuel IH]; intros sp ss; simpl; [discriminate|].
  destruct (After sp e); [intros [= <-] []|].
  destruct (slotLoop fuel D dataArray e (Add sp D)) as [ss'|] eqn:E; [|discriminate].
  intros [= <-] [<-|Hs]; [reflexivity|]. rewrite (IH _ _ E Hs). reflexivity.
Qed.

Lemma getnum_nonneg (s : string) (fixed : bool) (n : Z) (rest : string) :
  getnum s fixed = Some (n, rest) -> 0 <= n.
Proof.
  assert (Hd : forall c, isDigit c = true -> 0 <= digitVal c).
  { intros c. unfold isDigit, digitVal. lia. }
  unfold getnum. destruct s as [|c0 s]; [discriminate|].
  destruct (isDigit c0) eqn:E0; [|discriminate]. apply Hd in E0.
  destruct s as [|c1 s].
  - destruct fixed; [discriminate|]. intros [= <- _]. exact E0.
  - destruct (isDigit c1) eqn:E1.
    + apply Hd in E1. intros [= <- _]. lia.
    + destruct fixed; [discriminate|]. intros [= <- _]. exact E0.
Qed.

Lemma getzone_range (s : string) (zoneOffset : Z) (rest : string) :
  getzone s = Some (zoneOffset, rest) ->
  zoneOffset mod 60 = 0 /\ -360000 < zoneOffset < 360000.
Proof.
  unfold getzone. destruct s as [|sign s]; [discriminate|].
  destruct (Ascii.eqb sign "Z"); [intros [= <- _]; split; [reflexivity|lia]|].
  destruct s as [|h1 [|h2 [|colon [|m1 [|m2 rest']]]]]; try discriminate.
  destruct (negb (Ascii.eqb colon ":")); [discriminate|].
  destruct (getnum (String h1 (String h2 "")) true) as [[hr ?]|] eqn:Eh;
    [|discriminate].
  destruct (getnum (String m1 (String m2 "")) true) as [[mm ?]|] eqn:Em;
    [|discriminate].
  cbn [mbind option_bind].
  apply getnum_nonneg in Eh, Em.
  destruct ((24 <? hr) || (60 <? mm)) eqn:Er; [discriminate|].
  apply orb_false_iff in Er as [Hh Hm]. apply Z.ltb_ge in Hh, Hm.
  assert (Hmod : forall k, (k * 60) mod 60 = 0) by (intros k; apply Z_mod_mult).
  destruct (Ascii.eqb sign "+"); [|destruct (Ascii.eqb sign "-"); [|discriminate]];
    intros [= <- _]; split; try lia.
  - apply Hmod.
  - replace (- ((hr * 60 + mm) * 60)) with ((- (hr * 60 + mm)) * 60) by lia.
    apply Hmod.
Qed.

(** The location of a timestamp that parses is a whole number of minutes
    from UTC, within the two digits of hours [Format] prints. *)
Lemma Parse_zone (value : string) (t : Time) :
  Parse value = Some t -> zone t mod 60 = 0 /\ -360000 < zone t < 360000.
Proof.
  unfold Parse. intros Hp.
  repeat match type of Hp with
         | (mbind _ ?o) = Some _ =>
             destruct o as [[? ?]|] eqn:?; cbn [mbind option_bind] in Hp;
             [|discriminate]
         | (mbind _ ?o) = Some _ =>
             destruct o as [?|] eqn:?; cbn [mbind option_bind] in Hp;
             [|discriminate]
         | (let '(_, _) := ?p in _) = Some _ => destruct p as [? ?] eqn:?
         | (if ?b then _ else _) = Some _ => destruct b; [discriminate|]
         end.
  injection Hp as <-. cbn [zone].
  eapply getzone_range; eassumption.
Qed.

Lemma parsedTimestamp_zone (data : MonitorData) :
  zone (parsedTimestamp data) mod 60 = 0
  /\ -360000 < zone (parsedTimestamp data) < 360000.
Proof.
  unfold parsedTimestamp. destruct (Parse (Timestamp data)) as [t|] eqn:E.
  - apply (Parse_zone _ _ E).
  - split; [reflexivity|simpl; lia].
Qed.

Section Plan.

Context `{SliceSorter}.

(** The slots of a run, between the least instant [lo] and the greatest
    instant [hi] of the batch: they start at the floor of [lo], each is [D]
    long and starts where the one before it ends, and the last one ends at
    the boundary at or after [hi]. *)
Lemma slots_plan (D : Duration) (dataArray : list MonitorData) (lo hi : Z)
    (ss : list Slot) :
  0 < D -> leastInstant lo dataArray -> greatestInstant hi dataArray ->
  slots D dataArray = Some ss ->
  alignedStart D lo + Z.of_nat (length ss) * D = alignedEnd D hi
  /\ forall (k : nat) (s : Slot),
       ss !! k = Some s ->
       abs (slotStartTime s) = alignedStart D lo + Z.of_nat k * D
       /\ abs (slotSplitTime s) = alignedStart D lo + Z.of_nat k * D + D.
Proof.
  intros HD Hlo Hhi Hss.
  destruct (slots_slotList D dataArray lo hi HD Hlo Hhi) as (rd & Hrd & E).
  rewrite E in Hss. injection Hss as <-. split.
  - rewrite slotList_length.
    destruct (aligned_exists D _ HD (alignedStart_aligned D lo HD)) as [ql Eql].
    destruct (aligned_exists D _ HD (alignedEnd_aligned D hi HD)) as [qh Eqh].
    assert (lo <= hi).
    { destruct Hlo as [[r [Hr Er]] _]. destruct Hhi as [_ Hhi].
      specialize (Hhi r Hr). lia. }
    pose proof (alignedStart_bounds D lo HD). pose proof (alignedEnd_bounds D hi HD).
    rewrite Eqh, Eql in *.
    replace (qh * D - ql * D) with ((qh - ql) * D) by lia.
    rewrite Z.div_mul by lia. assert (ql <= qh) by nia.
    rewrite Z2Nat.id by lia. lia.
  - intros k s Hk.
    assert (Hlt : (k < Z.to_nat ((alignedEnd D hi - alignedStart D lo) / D))%nat).
    { apply lookup_lt_Some in Hk. rewrite slotList_length in Hk. exact Hk. }
    rewrite slotList_lookup in Hk by exact Hlt. injection Hk as <-.
    cbn [slotStartTime slotSplitTime abs Add]. lia.
Qed.

(** Every start of a slot is shown in the location of an earliest record
    of the batch. *)
Lemma slots_start_zone (D : Duration) (dataArray : list MonitorData)
    (ss : list Slot) (s : Slot) :
  slots D dataArray = Some ss -> In s ss ->
  exists first,
    In first dataArray
    /\ (forall r, In r dataArray -> instant first <= instant r)
    /\ zone (slotStartTime s) = zone (parsedTimestamp first).
Proof.
  unfold slots, bounds. intros Hss Hs.
  pose proof (sorted_ascending dataArray) as Hsorted.
  pose proof (sorted_In dataArray) as Hin.
  destruct (sort_Slice lessTimestamp dataArray) as [|first rest]; [discriminate|].
  cbn [mbind option_bind] in Hss.
  exists first. split; [apply Hin; left; reflexivity|]. split.
  - intros r Hr. apply (StronglySorted_first_least first rest Hsorted), Hin, Hr.
  - rewrite (slotLoop_zone _ _ _ _ _ _ _ Hss Hs).
    cbn [zone Add]. apply roundedDownStartTime_zone.
Qed.

(** With the five-minute duration, the start of a slot is on a whole
    second and in a location a whole number of minutes from UTC: it
    is printable as soon as its year has four digits. *)
Lemma slots_start_printable (dataArray : list MonitorData)
    (ss : list Slot) (s : Slot) :
  slots FILE_DURATION dataArray = Some ss -> In s ss ->
  (let '(year, _, _, _, _, _) := clock (slotStartTime s) in
   0 <= year < 10000) ->
  printable (slotStartTime s) = true.
Proof.
  intros Hss Hs Hyear.
  assert (HD : 0 < FILE_DURATION) by reflexivity.
  destruct (slots_start_zone _ _ _ _ Hss Hs) as (first & _ & _ & Hz).
  destruct (parsedTimestamp_zone first) as [Hm Hb]. rewrite <- Hz in Hm, Hb.
  assert (Ha : abs (slotStartTime s) mod Second = 0).
  { assert (Hne : dataArray <> []).
    { intros ->. unfold slots in Hss.
      pose proof (sorted_Permutation []) as Hp. apply Permutation_nil_r in Hp.
      rewrite Hp in Hss. discriminate. }
    destruct (bounds_sorted FILE_DURATION dataArray HD Hne)
      as (lo & hi & _ & _ & Hlo & Hhi & _).
    apply list_elem_of_In, list_elem_of_lookup in Hs as [k Hk].
    destruct (slots_plan _ _ _ _ _ HD Hlo Hhi Hss) as [_ Hplan].
    destruct (Hplan k s Hk) as [Hstart _]. rewrite Hstart.
    destruct (aligned_exists _ _ HD (alignedStart_aligned FILE_DURATION lo HD))
      as [q Eq].
    rewrite Eq.
    replace (q * FILE_DURATION + Z.of_nat k * FILE_DURATION)
      with ((q + Z.of_nat k) * 300 * Second) by (unfold FILE_DURATION, Minute; lia).
    apply Z_mod_mult. }
  unfold printable. destruct (clock (slotStartTime s)) as [[[[[y ?] ?] ?] ?] ?].
  repeat (apply andb_true_iff; split); lia.
Qed.

(** A record whose timestamp does not parse is in no slot: the zero time
    that stands in for it is on a boundary. *)
Lemma unparseable_in_no_slot (D : Duration) (dataArray : list MonitorData)
    (ss : list Slot) (r : MonitorData) :
  0 < D -> Parse (Timestamp r) = None -> slots D dataArray = Some ss ->
  forall s, In s ss -> ~ In r (splitDataArray s).
Proof.
  intros HD Hp Hss. apply (slots_drop_boundary D dataArray ss r HD Hss).
  unfold aligned, instant, parsedTimestamp. rewrite Hp. reflexivity.
Qed.

End Plan.

(** ** Worked examples

    The runs at concrete inputs below sort with [insertionSorter]: on a
    slice of at most six elements that is what [sort.Slice] does. *)

Example Parse_Z :
  Parse "2023-03-01T10:05:00Z" = Some (mkTime 63813261900000000000 0).
Proof. vm_compute. reflexivity. Qed.

Example Parse_offset_fraction :
  Parse "2023-03-01T11:05:00.25+01:00"
  = Some (mkTime 63813261900250000000 3600).
Proof. vm_compute. reflexivity. Qed.

Example Parse_unix_epoch :
  Parse "1970-01-01T00:00:00Z" = Some (mkTime (62135596800 * Second) 0).
Proof. vm_compute. reflexivity. Qed.

Example Parse_no_such_day : Parse "2023-02-29T10:05:00Z" = None.
Proof. vm_compute. reflexivity. Qed.

Example Parse_space_for_T : Parse "2023-03-01 10:05:00Z" = None.
Proof. vm_compute. reflexivity. Qed.

Example Format_offset :
  Format (mkTime 63813261900250000000 3600) = "2023-03-01T11:05:00+01:00".
Proof. vm_compute. reflexivity. Qed.

(** Scenario A of the specification, as the source runs it: the record at
    10:00:00 sits on the start of the first slot and is left out. *)
Example scenario_A :
  fmap (map showSlot)
       (slots FILE_DURATION [sample "2023-03-01T10:07:10Z";
                             sample "2023-03-01T10:00:00Z";
                             sample "2023-03-01T10:02:30Z"])
  = Some [("2023-03-01T10:00:00Z", "2023-03-01T10:05:00Z", ["2023-03-01T10:02:30Z"]);
          ("2023-03-01T10:05:00Z", "2023-03-01T10:10:00Z", ["2023-03-01T10:07:10Z"])].
Proof. vm_compute. reflexivity. Qed.

(** ** C1: assignment of records to slots *)

(** C1 (defect of the source). The claim has every record in exactly one
    window, the one with [start <= timestamp < end]. On the batch 10:02:30,
    10:05:00, 10:07:10 the source goes through the slots [10:00, 10:05] and
    [10:05, 10:10] and puts the record at 10:05:00 in neither: the test
    [After(slotStartTime) && Before(splitTime)] leaves out both ends. *)
Theorem C1_record_on_boundary_in_no_slot :
  fmap (map showSlot)
       (slots FILE_DURATION [sample "2023-03-01T10:02:30Z";
                             sample "2023-03-01T10:05:00Z";
                             sample "2023-03-01T10:07:10Z"])
  = Some [("2023-03-01T10:00:00Z", "2023-03-01T10:05:00Z", ["2023-03-01T10:02:30Z"]);
          ("2023-03-01T10:05:00Z", "2023-03-01T10:10:00Z", ["2023-03-01T10:07:10Z"])].
Proof. vm_compute. reflexivity. Qed.

(** ** C2: the last slot *)

(** C2 (defect of the source). The claim has at least one window, and for a
    single record at exactly 10:05:00 the window [10:05, 10:10). The source
    rounds both bounds to 10:05:00, so its first [splitTime], 10:10:00, is
    already after the end: the loop body never runs, there is no slot and
    no call of [PutObject]. *)
Theorem C2_single_record_on_boundary_no_slot :
  slots FILE_DURATION [sample "2023-03-01T10:05:00Z"] = Some []
  /\ fmap calls (compileMonitorData FILE_DURATION
                   [sample "2023-03-01T10:05:00Z"] acceptAll) = Some [].
Proof. split; vm_compute; reflexivity. Qed.

(** ** C4: what the slots cover *)

(** C4 (defect of the source). The claim has the windows cover
    [alignedStart(min), alignedStart(max) + D). On the batch 10:02:30,
    10:05:00 that is [10:00, 10:10); the source stops at the boundary
    10:05:00 the greatest timestamp sits on and goes through the single slot
    [10:00, 10:05]. *)
Theorem C4_slots_stop_at_greatest_on_boundary :
  fmap (map showSlot)
       (slots FILE_DURATION [sample "2023-03-01T10:02:30Z";
                             sample "2023-03-01T10:05:00Z"])
  = Some [("2023-03-01T10:00:00Z", "2023-03-01T10:05:00Z", ["2023-03-01T10:02:30Z"])]
  /\ Format (mkTime (alignedStart FILE_DURATION
                       (instant (sample "2023-03-01T10:05:00Z")) + FILE_DURATION) 0)
     = "2023-03-01T10:10:00Z".
Proof. split; vm_compute; reflexivity. Qed.

(** ** C6: timestamps that do not parse *)

(** C6 (defect of the source). The claim has a record with an unparseable
    timestamp rejected with an error. The source drops the error of
    [time.Parse] (its two guards hold a to-do note and nothing else) and
    goes on with the zero time: the record is sorted first, the lower bound
    of the loop is taken from it (January 1 of year 1), and [HandleRequest]
    returns no error. The record itself ends in no slot
    ([unparseable_in_no_slot]). *)
Theorem C6_unparseable_timestamp_sorted_as_zero_time :
  Parse "2023-03-01 10:02:30" = None
  /\ sort_Slice lessTimestamp [sample "2023-03-01T10:07:10Z";
                               sample "2023-03-01 10:02:30"]
     = [sample "2023-03-01 10:02:30"; sample "2023-03-01T10:07:10Z"]
  /\ bounds FILE_DURATION [sample "2023-03-01 10:02:30";
                           sample "2023-03-01T10:07:10Z"]
     = Some (zeroTime, mkTime 63813262200000000000 0)
  /\ HandleRequest FILE_DURATION (mkEvent "archive")
       (FetchOk [sample "2023-03-01 10:02:30"]) acceptAll
     = Some ([LogStarting; PrintStartEnd zeroTime zeroTime],
             ("Hello archive", None)).
Proof. repeat split; vm_compute; reflexivity. Qed.

(** ** C7: the rounding of the first timestamp *)

(** C7. For every timestamp [t] and every positive window duration [D], the
    start computed by the source (round [t] to the nearest multiple of [D],
    then step back by [D] if the rounded value lies after [t]) is the
    floor alignment [floor (t / D) * D] of the specification, in the
    location of [t]. *)
Theorem C7_round_then_correct_is_floor (D : Duration) (t : Time) :
  0 < D ->
  roundedDownStartTime D t = mkTime (alignedStart D (abs t)) (zone t).
Proof.
  intros HD.
  pose proof (roundedDownStartTime_abs D t HD) as Ha.
  pose proof (roundedDownStartTime_zone D t) as Hz.
  destruct (roundedDownStartTime D t) as [a z]; simpl in *. congruence.
Qed.

Lemma C7_witness :
  0 < FILE_DURATION /\
  roundedDownStartTime FILE_DURATION (mkTime 430000000000 3600)
  = mkTime (alignedStart FILE_DURATION 430000000000) 3600.
Proof.
  split; [reflexivity|].
  apply (C7_round_then_correct_is_floor FILE_DURATION (mkTime 430000000000 3600)).
  reflexivity.
Defined.

(** ** The effects of a run *)

Lemma calls_app (t1 t2 : list effect) : calls (t1 ++ t2) = calls t1 ++ calls t2.
Proof. apply omap_app. Qed.

Lemma In_calls (trace : list effect) (input : PutObjectInput) :
  In input (calls trace) <-> In (CallPutObject input) trace.
Proof.
  unfold calls. rewrite <- !list_elem_of_In, list_elem_of_omap. split.
  - intros (e & He & Hinp). destruct e; try discriminate. congruence.
  - intros He. exists (CallPutObject input). split; [exact He|reflexivity].
Qed.

(** The one request [compileAndStoreinS3] makes for a non-empty slot. *)
Lemma compileAndStoreinS3_call (client : S3Client)
    (splitDataArray : list MonitorData) (slotStartTime : Time)
    (input : PutObjectInput) :
  In (CallPutObject input) (compileAndStoreinS3 client splitDataArray slotStartTime) ->
  exists first rest,
    splitDataArray = first :: rest
    /\ input
       = mkPutObjectInput BUCKET_NAME
           (filename (OrgId first) (MonitorId first) slotStartTime)
           (marshalCompiledMonitorData
              (mkCompiledMonitorData (MonitorId first) (OrgId first)
                 (Format slotStartTime)
                 (map (fun data => mkEntry (Timestamp data) (Values data))
                      splitDataArray))).
Proof.
  unfold compileAndStoreinS3. destruct splitDataArray as [|first rest]; [intros []|].
  intros Hin. exists first, rest. split; [reflexivity|].
  destruct (client _); destruct Hin as [E|[E|[]]]; congruence.
Qed.

Lemma compileAndStoreinS3_calls (client client' : S3Client)
    (splitDataArray : list MonitorData) (slotStartTime : Time) :
  calls (compileAndStoreinS3 client splitDataArray slotStartTime)
  = calls (compileAndStoreinS3 client' splitDataArray slotStartTime).
Proof.
  unfold compileAndStoreinS3. destruct splitDataArray as [|first rest]; [reflexivity|].
  destruct (client _), (client' _); reflexivity.
Qed.

Lemma compileAndStoreinS3_logged (client : S3Client)
    (splitDataArray : list MonitorData) (slotStartTime : Time)
    (input : PutObjectInput) (err : string) :
  In (CallPutObject input) (compileAndStoreinS3 client splitDataArray slotStartTime) ->
  client input = Some err ->
  In (LogUploadError err) (compileAndStoreinS3 client splitDataArray slotStartTime).
Proof.
  intros Hin Hc.
  destruct (compileAndStoreinS3_call _ _ _ _ Hin) as (first & rest & -> & Einp).
  unfold compileAndStoreinS3. cbv zeta. rewrite <- Einp, Hc.
  right; left; reflexivity.
Qed.

Lemma failuresLogged_app (client : S3Client) (t1 t2 : list effect) :
  failuresLogged client t1 -> failuresLogged client t2 ->
  failuresLogged client (t1 ++ t2).
Proof.
  intros H1 H2 input err Hin Hc. apply in_app_iff.
  apply in_app_iff in Hin as [Hin|Hin]; [left; eapply H1|right; eapply H2]; eauto.
Qed.

Lemma failuresLogged_concat (client : S3Client) (ts : list (list effect)) :
  Forall (failuresLogged client) ts -> failuresLogged client (concat ts).
Proof.
  induction 1 as [|t ts Ht Hts IH]; simpl.
  - intros ? ? [].
  - apply failuresLogged_app; assumption.
Qed.

Lemma calls_concat_ext (ts ts' : list (list effect)) :
  Forall2 (fun t t' => calls t = calls t') ts ts' ->
  calls (concat ts) = calls (concat ts').
Proof.
  induction 1 as [|t t' ts ts' Ht Hts IH]; simpl; [reflexivity|].
  rewrite !calls_app. congruence.
Qed.

Section Run.

Context `{SliceSorter}.

(** [compileMonitorData] returns on every non-empty slice. *)
Lemma compileMonitorData_total (D : Duration) (dataArray : list MonitorData)
    (client : S3Client) :
  0 < D -> dataArray <> [] ->
  exists ss roundedDown roundedUp,
    slots D dataArray = Some ss
    /\ compileMonitorData D dataArray client
       = Some (concat (map (fun s => compileAndStoreinS3 client (splitDataArray s)
                                                         (slotStartTime s)) ss)
               ++ [PrintStartEnd roundedDown roundedUp]).
Proof.
  intros HD Hne.
  destruct (bounds_sorted D dataArray HD Hne)
    as (lo & hi & rd & ru & Hlo & Hhi & Hb & _ & _).
  destruct (slots_slotList D dataArray lo hi HD Hlo Hhi) as (rd' & _ & E).
  eexists _, rd, ru. split; [exact E|].
  unfold compileMonitorData. rewrite Hb. cbn [mbind option_bind].
  rewrite E. reflexivity.
Qed.

Lemma compileMonitorData_failuresLogged (D : Duration)
    (dataArray : list MonitorData) (client : S3Client) (trace : list effect) :
  0 < D -> compileMonitorData D dataArray client = Some trace ->
  failuresLogged client trace.
Proof.
  intros HD Hrun.
  destruct dataArray as [|d0 l].
  { unfold compileMonitorData in Hrun.
    pose proof (sorted_Permutation []) as Hp. apply Permutation_nil_r in Hp.
    rewrite Hp in Hrun. discriminate. }
  destruct (compileMonitorData_total D (d0 :: l) client HD ltac:(discriminate))
    as (ss & rd & ru & _ & E).
  rewrite E in Hrun. injection Hrun as <-.
  apply failuresLogged_app.
  - apply failuresLogged_concat, Forall_forall. intros t Ht.
    apply list_elem_of_In, in_map_iff in Ht as (s & <- & _).
    intros input err. apply compileAndStoreinS3_logged.
  - intros input err [Hin|[]]. discriminate.
Qed.

Lemma compileMonitorData_calls (D : Duration) (dataArray : list MonitorData)
    (client client' : S3Client) (trace trace' : list effect) :
  compileMonitorData D dataArray client = Some trace ->
  compileMonitorData D dataArray client' = Some trace' ->
  calls trace = calls trace'.
Proof.
  unfold compileMonitorData. intros Hrun Hrun'.
  destruct (bounds D _) as [[rd ru]|]; [|discriminate].
  cbn [mbind option_bind] in *.
  destruct (slots D dataArray) as [ss|]; [|discriminate].
  cbn [mbind option_bind] in *.
  injection Hrun as <-. injection Hrun' as <-.
  rewrite !calls_app. f_equal.
  apply calls_concat_ext. induction ss as [|s ss IH]; constructor; [|exact IH].
  apply compileAndStoreinS3_calls.
Qed.

(** Every slice of the map has a record in it. *)
Lemma groupByMonitor_nonempty (allMonitorData : list MonitorData)
    (monitorId : string) (dataArray : list MonitorData) :
  groupByMonitor allMonitorData !! monitorId = Some dataArray -> dataArray <> [].
Proof.
  unfold groupByMonitor.
  assert (Hgen : forall (m : gmap string (list MonitorData)),
             (forall k l, m !! k = Some l -> l <> []) ->
             forall k l,
               fold_left (fun monitorDataMap data =>
                            <[MonitorId data :=
                                default [] (monitorDataMap !! MonitorId data)
                                ++ [data]]> monitorDataMap)
                         allMonitorData m !! k = Some l -> l <> []).
  { induction allMonitorData as [|d ds IH]; intros m Hm k l; simpl; [apply Hm|].
    apply IH. intros k' l'. rewrite lookup_insert. case_decide.
    - intros [= <-]. intros E. apply app_eq_nil in E as [_ E]. discriminate.
    - apply Hm. }
  apply Hgen. intros k l. rewrite lookup_empty. discriminate.
Qed.

(** [HandleRequest] returns on every input, and what it returns is the
    greeting and no error. *)
Lemma HandleRequest_total (D : Duration) (event : Event) (fetched : Fetched)
    (client : S3Client) :
  0 < D ->
  exists traces,
    mapM (fun '(_, dataArray) => compileMonitorData D dataArray client)
         (map_to_list (groupByMonitor
            match fetched with FetchOk items => items | FetchError _ => [] end))
    = Some traces
    /\ HandleRequest D event fetched client
       = Some (LogStarting :: concat traces, ("Hello " +:+ Name event, None)).
Proof.
  intros HD. unfold HandleRequest.
  set (m := groupByMonitor _).
  destruct (mapM _ (map_to_list m)) as [traces|] eqn:E.
  - exists traces. split; reflexivity.
  - exfalso. apply mapM_None, Exists_exists in E as ([k l] & Hkl & Hnone).
    apply elem_of_map_to_list in Hkl.
    destruct (compileMonitorData_total D l client HD
                (groupByMonitor_nonempty _ _ _ Hkl)) as (? & ? & ? & _ & E').
    congruence.
Qed.

End Run.

(** ** C3: what becomes of the errors of the collaborators *)

Lemma Forall2_same_source {A B : Type} (P P' : A -> B -> Prop)
    (Q : B -> B -> Prop) (l : list A) (k k' : list B) :
  (forall x y y', P x y -> P' x y' -> Q y y') ->
  Forall2 P l k -> Forall2 P' l k' -> Forall2 Q k k'.
Proof.
  intros HQ H1. revert k'. induction H1 as [|x y l k Hxy Hlk IH]; intros k' H2.
  - inversion H2. constructor.
  - inversion H2 as [|x' y' l' k'' Hxy' Hlk']; subst. constructor; eauto.
Qed.

(** C3, counterexample. One record, and a sink that refuses every request:
    the call fails and is logged, and [HandleRequest] returns to its caller
    exactly what it returns when the sink accepts everything, the greeting
    and a nil error. A failed fetch returns the same pair. *)
Lemma C3_counterexample :
  (exists trace,
      HandleRequest FILE_DURATION (mkEvent "archive")
        (FetchOk [sample "2023-03-01T10:02:30Z"]) rejectAll
      = Some (trace, ("Hello archive", None))
      /\ In (LogUploadError "quota exceeded") trace)
  /\ fmap snd (HandleRequest FILE_DURATION (mkEvent "archive")
                 (FetchOk [sample "2023-03-01T10:02:30Z"]) rejectAll)
     = fmap snd (HandleRequest FILE_DURATION (mkEvent "archive")
                   (FetchOk [sample "2023-03-01T10:02:30Z"]) acceptAll)
  /\ HandleRequest FILE_DURATION (mkEvent "archive") (FetchError "scan failed")
       acceptAll
     = Some ([LogStarting], ("Hello archive", None)).
Proof.
  split; [|split; vm_compute; reflexivity].
  eexists. split; [vm_compute; reflexivity|]. right; right; left. reflexivity.
Qed.

Section Errors.

Context `{SliceSorter}.

(** C3, as amended. An error of a persist call is written to the log and
    ends the task of its slot only: every request of the run is made
    whatever the sink answers to the others. The error is not returned:
    [HandleRequest] returns the greeting and a nil error on every input,
    and there is no result that counts attempts, successes or failures. *)
Theorem C3_sink_error_logged_not_returned (event : Event) (fetched : Fetched)
    (client : S3Client) :
  exists trace,
    HandleRequest FILE_DURATION event fetched client
    = Some (trace, ("Hello " +:+ Name event, None))
    /\ failuresLogged client trace
    /\ forall client' : S3Client,
         exists trace',
           HandleRequest FILE_DURATION event fetched client'
           = Some (trace', ("Hello " +:+ Name event, None))
           /\ calls trace' = calls trace.
Proof.
  assert (HD : 0 < FILE_DURATION) by reflexivity.
  destruct (HandleRequest_total FILE_DURATION event fetched client HD)
    as (traces & Hm & E).
  eexists. split; [exact E|]. split.
  - change (LogStarting :: concat traces) with ([LogStarting] ++ concat traces).
    apply failuresLogged_app.
    + intros input err [Hin|[]]. discriminate.
    + apply failuresLogged_concat. apply mapM_Some_1 in Hm. clear E.
      induction Hm as [|[k l] t ls ts Ht Hts IH]; [constructor|].
      constructor; [|exact IH].
      eapply compileMonitorData_failuresLogged; eauto.
  - intros client'.
    destruct (HandleRequest_total FILE_DURATION event fetched client' HD)
      as (traces' & Hm' & E').
    eexists. split; [exact E'|].
    change (calls (concat traces') = calls (concat traces)).
    apply calls_concat_ext. apply mapM_Some_1 in Hm, Hm'.
    refine (Forall2_same_source _ _ _ _ _ _ _ Hm' Hm).
    intros [k l] t t' Ht Ht'.
    eapply compileMonitorData_calls; eauto.
Qed.

End Errors.

(** ** C5: the order of the records of a slot *)

Lemma NoDup_map_In_inj {A B : Type} (f : A -> B) (l : list A) (x y : A) :
  NoDup (map f l) -> In x l -> In y l -> f x = f y -> x = y.
Proof.
  induction l as [|a l IH]; intros Hnd Hx Hy E; [destruct Hx|].
  simpl in Hnd. apply NoDup_cons in Hnd as [Hna Hnd].
  assert (Hnot : forall z, In z l -> f a = f z -> False).
  { intros z Hz Ez. apply Hna, list_elem_of_In. rewrite Ez. apply in_map, Hz. }
  destruct Hx as [->|Hx], Hy as [->|Hy]; auto.
  - exfalso. eapply Hnot; eauto.
  - exfalso. eapply Hnot; eauto.
Qed.

Lemma StronglySorted_filter_bool {A : Type} (R : A -> A -> Prop)
    (f : A -> bool) (l : list A) :
  StronglySorted R l -> StronglySorted R (List.filter f l).
Proof.
  induction 1 as [|a l Hl IH Ha]; simpl; [constructor|].
  destruct (f a); [|exact IH]. constructor; [exact IH|].
  rewrite Forall_forall in *. intros x Hx. apply Ha.
  apply list_elem_of_In. apply list_elem_of_In, filter_In in Hx. tauto.
Qed.

Lemma slotLoop_splitData (fuel : nat) (D : Duration)
    (dataArray : list MonitorData) (e splitTime : Time) (ss : list Slot) (s : Slot) :
  slotLoop fuel D dataArray e splitTime = Some ss -> In s ss ->
  exists splitTime', splitDataArray s = splitData D dataArray splitTime'.
Proof.
  revert splitTime ss. induction fuel as [|fuel IH]; intros sp ss; simpl; [discriminate|].
  destruct (After sp e); [intros [= <-] []|].
  destruct (slotLoop fuel D dataArray e (Add sp D)) as [ss'|] eqn:E; [|discriminate].
  intros [= <-] [<-|Hs]; [eexists; reflexivity|]. eapply IH; eauto.
Qed.

(** C5, counterexample. Two records with the same timestamp handed over in
    the two possible orders: the one slot lists them in the order they came
    in, so the two runs write different entry sequences. *)
Lemma C5_counterexample :
  [tie1; tie2] ≡ₚ [tie2; tie1]
  /\ fmap (map (fun s => map Values (splitDataArray s)))
          (slots FILE_DURATION [tie1; tie2])
     = Some [[Some [("cpu", JNumber "1")]; Some [("cpu", JNumber "2")]]]
  /\ fmap (map (fun s => map Values (splitDataArray s)))
          (slots FILE_DURATION [tie2; tie1])
     = Some [[Some [("cpu", JNumber "2")]; Some [("cpu", JNumber "1")]]]
  /\ compileMonitorData FILE_DURATION [tie1; tie2] acceptAll
     <> compileMonitorData FILE_DURATION [tie2; tie1] acceptAll.
Proof.
  split; [apply Permutation_swap|].
  split; [vm_compute; reflexivity|]. split; [vm_compute; reflexivity|].
  vm_compute. intros E. discriminate E.
Qed.

Section Order.

Context `{SliceSorter}.

(** The sorted slice of a batch whose instants are pairwise distinct does
    not depend on the order the batch came in. *)
Lemma sort_Slice_distinct (dataArray dataArray' : list MonitorData) :
  dataArray ≡ₚ dataArray' -> NoDup (map instant dataArray) ->
  sort_Slice lessTimestamp dataArray = sort_Slice lessTimestamp dataArray'.
Proof.
  intros Hp Hnd.
  apply (StronglySorted_unique_strong (fun a b => instant a <= instant b)).
  - intros x1 x2 H1 H2 Hle Hge.
    apply (NoDup_map_In_inj instant dataArray); [exact Hnd| | |lia].
    + apply sorted_In, list_elem_of_In, H1.
    + apply list_elem_of_In in H2. apply (proj1 (sorted_In _ _)) in H2.
      eapply Permutation_in; [symmetry; exact Hp|exact H2].
  - apply sorted_ascending.
  - apply sorted_ascending.
  - rewrite !sorted_Permutation. exact Hp.
Qed.

(** C5, as amended. For a batch whose records have pairwise distinct
    instants, every order of the batch gives the same run: the same slots
    with the same records in the same order, hence the same requests with
    the same entry sequences. In every batch the records of a slot are in
    ascending order of their instants; the order of records with equal
    instants is the one [sort.Slice] leaves, which is not fixed. *)
Theorem C5_order_within_slots (D : Duration) (dataArray : list MonitorData) :
  (forall (dataArray' : list MonitorData) (client : S3Client),
      dataArray ≡ₚ dataArray' -> NoDup (map instant dataArray) ->
      slots D dataArray = slots D dataArray'
      /\ compileMonitorData D dataArray client
         = compileMonitorData D dataArray' client)
  /\ (forall (ss : list Slot) (s : Slot),
         slots D dataArray = Some ss -> In s ss ->
         StronglySorted (fun a b => instant a <= instant b) (splitDataArray s)).
Proof.
  split.
  - intros dataArray' client Hp Hnd.
    pose proof (sort_Slice_distinct dataArray dataArray' Hp Hnd) as E.
    unfold compileMonitorData, slots. rewrite E. split; reflexivity.
  - intros ss s Hss Hs. unfold slots in Hss.
    destruct (bounds D _) as [[rd ru]|]; [|discriminate].
    cbn [mbind option_bind] in Hss.
    destruct (slotLoop_splitData _ _ _ _ _ _ _ Hss Hs) as [sp ->].
    apply StronglySorted_filter_bool, sorted_ascending.
Qed.

End Order.

Lemma C5_witness :
  slots FILE_DURATION [sample "2023-03-01T10:07:10Z"; sample "2023-03-01T10:02:30Z"]
  = slots FILE_DURATION [sample "2023-03-01T10:02:30Z"; sample "2023-03-01T10:07:10Z"]
  /\ compileMonitorData FILE_DURATION
       [sample "2023-03-01T10:07:10Z"; sample "2023-03-01T10:02:30Z"] acceptAll
     = compileMonitorData FILE_DURATION
         [sample "2023-03-01T10:02:30Z"; sample "2023-03-01T10:07:10Z"] acceptAll.
Proof.
  apply (proj1 (C5_order_within_slots FILE_DURATION
                  [sample "2023-03-01T10:07:10Z"; sample "2023-03-01T10:02:30Z"])).
  - apply Permutation_swap.
  - vm_compute. repeat constructor; intros Hin;
      repeat (apply elem_of_cons in Hin as [Hin|Hin]; [discriminate Hin|]);
      inversion Hin.
Defined.

(** ** [Format] tells window starts apart *)

Lemma allFrom_spec (f : Z -> bool) (n : nat) (z : Z) :
  allFrom f n z = true -> forall k, z <= k < z + Z.of_nat n -> f k = true.
Proof.
  revert z. induction n as [|n IH]; intros z Hall k Hk; [lia|].
  simpl in Hall. apply andb_true_iff in Hall as [Hz Hrest].
  destruct (Z.eq_dec k z) as [->|Hne]; [exact Hz|].
  apply (IH (z + 1) Hrest). lia.
Qed.

Lemma eraCheck_era : allFrom eraCheck (Z.to_nat 146097) 0 = true.
Proof. vm_compute. reflexivity. Qed.

Lemma eraDate_eraDay (doe : Z) :
  0 <= doe < 146097 ->
  forall yoe month day,
    eraDate doe = (yoe, month, day) ->
    0 <= yoe < 400 /\ 1 <= month <= 12 /\ 1 <= day <= 31
    /\ eraDay yoe month day = doe.
Proof.
  intros Hdoe yoe month day E.
  pose proof (allFrom_spec eraCheck _ 0 eraCheck_era doe ltac:(lia)) as Hc.
  unfold eraCheck in Hc. rewrite E in Hc.
  repeat (apply andb_true_iff in Hc as [Hc ?]). lia.
Qed.

Lemma daysToDate_range (days year month day : Z) :
  daysToDate days = (year, month, day) -> 1 <= month <= 12 /\ 1 <= day <= 31.
Proof.
  unfold daysToDate.
  destruct (eraDate ((days + 306) mod 146097)) as [[yoe m] d] eqn:E.
  intros [= <- <- <-].
  pose proof (Z.mod_pos_bound (days + 306) 146097 ltac:(lia)) as Hb.
  destruct (eraDate_eraDay _ Hb _ _ _ E) as (_ & Hm & Hd & _). lia.
Qed.

(** The day number of the date of a day is that day. *)
Lemma dateToDays_daysToDate (days year month day : Z) :
  daysToDate days = (year, month, day) -> dateToDays year month day = days.
Proof.
  unfold daysToDate, dateToDays.
  destruct (eraDate ((days + 306) mod 146097)) as [[yoe m] d] eqn:E.
  intros [= <- <- <-].
  pose proof (Z.mod_pos_bound (days + 306) 146097 ltac:(lia)) as Hb.
  destruct (eraDate_eraDay _ Hb _ _ _ E) as (Hy & _ & _ & Hday).
  set (era := (days + 306) / 146097) in *.
  assert (Hyear : (if m <=? 2
                   then yoe + era * 400 + (if m <=? 2 then 1 else 0) - 1
                   else yoe + era * 400 + (if m <=? 2 then 1 else 0))
                  = yoe + era * 400).
  { destruct (m <=? 2); lia. }
  rewrite Hyear.
  rewrite Z.div_add, Z.mod_add by lia.
  rewrite (Z.div_small yoe 400), (Z.mod_small yoe 400) by lia.
  rewrite Hday. pose proof (Z.div_mod (days + 306) 146097 ltac:(lia)).
  subst era. lia.
Qed.

(** *** Digits *)

Lemma appendInt_twoDigits (n : Z) :
  0 <= n < 100 -> appendInt n 2 = twoDigits n.
Proof.
  intros Hn.
  assert (Hall : allFrom (fun k => String.eqb (appendInt k 2) (twoDigits k))
                         (Z.to_nat 100) 0 = true) by (vm_compute; reflexivity).
  apply String.eqb_eq. apply (allFrom_spec _ _ 0 Hall). lia.
Qed.

Lemma appendInt_fourDigits (n : Z) :
  0 <= n < 10000 -> appendInt n 4 = fourDigits n.
Proof.
  intros Hn.
  assert (Hall : allFrom (fun k => String.eqb (appendInt k 4) (fourDigits k))
                         (Z.to_nat 10000) 0 = true) by (vm_compute; reflexivity).
  apply String.eqb_eq. apply (allFrom_spec _ _ 0 Hall). lia.
Qed.

Lemma digitChar_inj (a b : Z) :
  0 <= a < 10 -> 0 <= b < 10 -> digitChar a = digitChar b -> a = b.
Proof.
  unfold digitChar. intros Ha Hb E.
  apply (f_equal nat_of_ascii) in E.
  rewrite !nat_ascii_embedding in E by lia. lia.
Qed.

Lemma twoDigits_inj (a b : Z) :
  0 <= a < 100 -> 0 <= b < 100 -> twoDigits a = twoDigits b -> a = b.
Proof.
  unfold twoDigits. intros Ha Hb [= E1 E0].
  apply digitChar_inj in E1, E0;
    try (split; [apply Z.div_pos|apply Z.div_lt_upper_bound]; lia);
    try (apply Z.mod_pos_bound; lia).
  pose proof (Z.div_mod a 10 ltac:(lia)). pose proof (Z.div_mod b 10 ltac:(lia)).
  lia.
Qed.

Lemma fourDigits_inj (a b : Z) :
  0 <= a < 10000 -> 0 <= b < 10000 -> fourDigits a = fourDigits b -> a = b.
Proof.
  unfold fourDigits. intros Ha Hb [= E3 E2 E1 E0].
  apply digitChar_inj in E3, E2, E1, E0;
    try (split; [apply Z.div_pos|apply Z.div_lt_upper_bound]; lia);
    try (apply Z.mod_pos_bound; lia).
  pose proof (Z.div_mod a 10 ltac:(lia)). pose proof (Z.div_mod b 10 ltac:(lia)).
  pose proof (Z.div_mod (a / 10) 10 ltac:(lia)).
  pose proof (Z.div_mod (b / 10) 10 ltac:(lia)).
  pose proof (Z.div_mod (a / 100) 10 ltac:(lia)).
  pose proof (Z.div_mod (b / 100) 10 ltac:(lia)).
  assert (a / 10 / 10 = a / 100) by (rewrite Z.div_div by lia; reflexivity).
  assert (b / 10 / 10 = b / 100) by (rewrite Z.div_div by lia; reflexivity).
  assert (a / 100 / 10 = a / 1000) by (rewrite Z.div_div by lia; reflexivity).
  assert (b / 100 / 10 = b / 1000) by (rewrite Z.div_div by lia; reflexivity).
  lia.
Qed.

(** *** Strings without a slash *)

Lemma append_nil (s : string) : "" +:+ s = s.
Proof. reflexivity. Qed.

Lemma append_cons (c : ascii) (s1 s2 : string) :
  String c s1 +:+ s2 = String c (s1 +:+ s2).
Proof. reflexivity. Qed.

Lemma noSlash_app (s1 s2 : string) :
  noSlash (s1 +:+ s2) = noSlash s1 && noSlash s2.
Proof.
  induction s1 as [|c s1 IH]; [reflexivity|].
  rewrite append_cons. cbn [noSlash]. rewrite IH, andb_assoc. reflexivity.
Qed.

Lemma append_assoc (s1 s2 s3 : string) :
  (s1 +:+ s2) +:+ s3 = s1 +:+ (s2 +:+ s3).
Proof.
  induction s1 as [|c s1 IH]; [reflexivity|].
  rewrite !append_cons, IH. reflexivity.
Qed.

Lemma length_append (s1 s2 : string) :
  String.length (s1 +:+ s2) = (String.length s1 + String.length s2)%nat.
Proof.
  induction s1 as [|c s1 IH]; [reflexivity|].
  rewrite append_cons. cbn [String.length]. rewrite IH. reflexivity.
Qed.

Lemma append_inv_tail (s1 s2 tail : string) :
  s1 +:+ tail = s2 +:+ tail -> s1 = s2.
Proof.
  intros E.
  assert (Hl : String.length s1 = String.length s2).
  { apply (f_equal String.length) in E. rewrite !length_append in E. lia. }
  revert s2 E Hl. induction s1 as [|c s1 IH]; intros [|c' s2] E Hl;
    try discriminate; [reflexivity|].
  rewrite !append_cons in E. injection E as -> E. f_equal. apply IH; [exact E|].
  simpl in Hl. lia.
Qed.

(** The text before the last slash and the text after it. *)
Lemma split_at_last_slash (a a' b b' : string) :
  noSlash b = true -> noSlash b' = true ->
  a +:+ "/" +:+ b = a' +:+ "/" +:+ b' -> a = a' /\ b = b'.
Proof.
  intros Hb Hb'. revert a'.
  induction a as [|c a IH]; intros [|c' a'] E;
    rewrite ?append_cons, ?append_nil in E.
  - injection E as ->. split; reflexivity.
  - injection E as <- E. rewrite E, noSlash_app in Hb.
    simpl in Hb. rewrite andb_false_r in Hb. discriminate.
  - injection E as -> E. rewrite <- E, noSlash_app in Hb'.
    simpl in Hb'. rewrite andb_false_r in Hb'. discriminate.
  - injection E as -> E. destruct (IH a' E) as [-> ->]. split; reflexivity.
Qed.

(** The key tells the organisation, the monitor and the printed start
    apart, when neither the monitor nor the printed start holds a slash. *)
Lemma key_parts (o1 m1 f1 o2 m2 f2 : string) :
  noSlash m1 = true -> noSlash m2 = true ->
  noSlash f1 = true -> noSlash f2 = true ->
  o1 +:+ "/" +:+ m1 +:+ "/" +:+ f1 +:+ "-data.json"
  = o2 +:+ "/" +:+ m2 +:+ "/" +:+ f2 +:+ "-data.json" ->
  o1 = o2 /\ m1 = m2 /\ f1 = f2.
Proof.
  intros Hm1 Hm2 Hf1 Hf2 E.
  assert (E' : (o1 +:+ "/" +:+ m1) +:+ "/" +:+ (f1 +:+ "-data.json")
               = (o2 +:+ "/" +:+ m2) +:+ "/" +:+ (f2 +:+ "-data.json")).
  { rewrite !append_assoc. exact E. }
  apply split_at_last_slash in E' as [Eom Ef];
    [|rewrite noSlash_app, ?Hf1, ?Hf2; reflexivity..].
  apply split_at_last_slash in Eom as [Eo Em]; [|assumption..].
  apply append_inv_tail in Ef. auto.
Qed.

(** *** The printed form of a start *)

Lemma Format_clock (t : Time) (year month day hour min sec : Z) :
  clock t = (year, month, day, hour, min, sec) ->
  Format t
  = appendInt year 4 +:+ "-" +:+ appendInt month 2 +:+ "-" +:+ appendInt day 2
    +:+ "T" +:+ appendInt hour 2 +:+ ":" +:+ appendInt min 2
    +:+ ":" +:+ appendInt sec 2 +:+ formatZone (zone t).
Proof.
  unfold clock, Format.
  destruct (daysToDate ((abs t / Second + zone t) / 86400)) as [[y m] d].
  intros [= <- <- <- <- <- <-]. reflexivity.
Qed.

Lemma clock_range (t : Time) (year month day hour min sec : Z) :
  clock t = (year, month, day, hour, min, sec) ->
  1 <= month <= 12 /\ 1 <= day <= 31
  /\ 0 <= hour < 24 /\ 0 <= min < 60 /\ 0 <= sec < 60.
Proof.
  unfold clock.
  destruct (daysToDate ((abs t / Second + zone t) / 86400)) as [[y m] d] eqn:E.
  intros [= <- <- <- <- <- <-].
  destruct (daysToDate_range _ _ _ _ E) as [Hm Hd].
  pose proof (Z.mod_pos_bound (abs t / Second + zone t) 86400 ltac:(lia)) as Hs.
  set (sod := (abs t / Second + zone t) mod 86400) in *.
  pose proof (Z.mod_pos_bound sod 3600 ltac:(lia)).
  pose proof (Z.mod_pos_bound sod 60 ltac:(lia)).
  repeat split; try lia.
  - apply Z.div_pos; lia.
  - apply Z.div_lt_upper_bound; lia.
  - apply Z.div_pos; lia.
  - apply Z.div_lt_upper_bound; lia.
Qed.

(** The clock and the location give the instant back, to the second. *)
Lemma clock_inj (t1 t2 : Time) :
  abs t1 mod Second = 0 -> abs t2 mod Second = 0 ->
  zone t1 = zone t2 -> clock t1 = clock t2 -> t1 = t2.
Proof.
  unfold clock. intros H1 H2 Hz.
  destruct (daysToDate ((abs t1 / Second + zone t1) / 86400)) as [[y1 m1] d1] eqn:E1.
  destruct (daysToDate ((abs t2 / Second + zone t2) / 86400)) as [[y2 m2] d2] eqn:E2.
  intros [= -> -> -> Eh Em Es].
  apply dateToDays_daysToDate in E1, E2.
  set (s1 := abs t1 / Second + zone t1) in *.
  set (s2 := abs t2 / Second + zone t2) in *.
  assert (Hsod : s1 mod 86400 = s2 mod 86400).
  { pose proof (Z.div_mod (s1 mod 86400) 3600 ltac:(lia)).
    pose proof (Z.div_mod (s2 mod 86400) 3600 ltac:(lia)).
    pose proof (Z.div_mod (s1 mod 86400 mod 3600) 60 ltac:(lia)).
    pose proof (Z.div_mod (s2 mod 86400 mod 3600) 60 ltac:(lia)).
    assert (forall x, x mod 3600 mod 60 = x mod 60) as Hmm.
    { intros x. pose proof (Z.div_mod x 3600 ltac:(lia)).
      replace (x mod 3600) with (x + (- (60 * (x / 3600))) * 60) by lia.
      apply Z.mod_add. lia. }
    rewrite Hmm in *. lia. }
  assert (Hs : s1 = s2).
  { pose proof (Z.div_mod s1 86400 ltac:(lia)).
    pose proof (Z.div_mod s2 86400 ltac:(lia)). lia. }
  subst s1 s2.
  pose proof (Z.div_mod (abs t1) Second ltac:(unfold Second; lia)).
  pose proof (Z.div_mod (abs t2) Second ltac:(unfold Second; lia)).
  destruct t1 as [a1 z1], t2 as [a2 z2]. simpl in *. subst z2.
  f_equal. lia.
Qed.

(** *** Telling the printed forms apart *)

Lemma twoDigits_app_inj (a b : Z) (s s' : string) :
  0 <= a < 100 -> 0 <= b < 100 ->
  twoDigits a +:+ s = twoDigits b +:+ s' -> a = b /\ s = s'.
Proof.
  intros Ha Hb E. unfold twoDigits in E.
  rewrite !append_cons, !append_nil in E. injection E as E1 E0 Es.
  split; [|exact Es]. apply twoDigits_inj; [assumption..|].
  unfold twoDigits. congruence.
Qed.

Lemma fourDigits_app_inj (a b : Z) (s s' : string) :
  0 <= a < 10000 -> 0 <= b < 10000 ->
  fourDigits a +:+ s = fourDigits b +:+ s' -> a = b /\ s = s'.
Proof.
  intros Ha Hb E. unfold fourDigits in E.
  rewrite !append_cons, !append_nil in E. injection E as E3 E2 E1 E0 Es.
  split; [|exact Es]. apply fourDigits_inj; [assumption..|].
  unfold fourDigits. congruence.
Qed.

Lemma literal_app_inj (c : ascii) (s s' : string) :
  String c "" +:+ s = String c "" +:+ s' -> s = s'.
Proof. rewrite !append_cons, !append_nil. intros [= E]. exact E. Qed.

Lemma literal_app_head (c c' : ascii) (s s' : string) :
  String c "" +:+ s = String c' "" +:+ s' -> c = c'.
Proof. rewrite !append_cons, !append_nil. intros [= E _]. exact E. Qed.

Lemma formatZone_inj (z1 z2 : Z) :
  z1 mod 60 = 0 -> z2 mod 60 = 0 ->
  -360000 < z1 < 360000 -> -360000 < z2 < 360000 ->
  formatZone z1 = formatZone z2 -> z1 = z2.
Proof.
  intros Hm1 Hm2 Hb1 Hb2. unfold formatZone.
  assert (Hq : forall z, z mod 60 = 0 -> z = 60 * Z.quot z 60).
  { intros z Hz. pose proof (Z.quot_rem' z 60) as Hd.
    apply Z.rem_mod_eq_0 in Hz; lia. }
  pose proof (Hq z1 Hm1) as Hq1. pose proof (Hq z2 Hm2) as Hq2.
  set (q1 := Z.quot z1 60) in *. set (q2 := Z.quot z2 60) in *.
  assert (Hr : forall q, -6000 < q < 6000 ->
               0 <= Z.abs q / 60 < 100 /\ 0 <= Z.abs q mod 60 < 100).
  { intros q Hq'. pose proof (Z.mod_pos_bound (Z.abs q) 60 ltac:(lia)).
    split; [|lia]. split; [apply Z.div_pos|apply Z.div_lt_upper_bound]; lia. }
  destruct (Hr q1 ltac:(lia)) as [Hh1 Hn1]. destruct (Hr q2 ltac:(lia)) as [Hh2 Hn2].
  assert (Hrec : forall q, Z.abs q = 60 * (Z.abs q / 60) + Z.abs q mod 60).
  { intros q. apply Z.div_mod. lia. }
  pose proof (Hrec q1). pose proof (Hrec q2).
  destruct (Z.eqb_spec z1 0) as [E1|N1], (Z.eqb_spec z2 0) as [E2|N2].
  - congruence.
  - destruct (q2 <? 0); rewrite ?append_cons; discriminate.
  - destruct (q1 <? 0); rewrite ?append_cons; discriminate.
  - rewrite !appendInt_twoDigits by assumption.
    destruct (Z.ltb_spec q1 0), (Z.ltb_spec q2 0); intros E;
      try (apply literal_app_head in E; discriminate E);
      apply literal_app_inj in E;
      apply twoDigits_app_inj in E as [Eh E]; try assumption;
      apply literal_app_inj in E;
      apply twoDigits_inj in E; try assumption; lia.
Qed.

(** Two printable starts with the same printed form are the same [Time]. *)
Lemma Format_inj (t1 t2 : Time) :
  printable t1 = true -> printable t2 = true ->
  Format t1 = Format t2 -> t1 = t2.
Proof.
  unfold printable. intros P1 P2 E.
  destruct (clock t1) as [[[[[y1 m1] d1] h1] n1] s1] eqn:C1.
  destruct (clock t2) as [[[[[y2 m2] d2] h2] n2] s2] eqn:C2.
  repeat (apply andb_true_iff in P1 as [P1 ?]).
  repeat (apply andb_true_iff in P2 as [P2 ?]).
  destruct (clock_range _ _ _ _ _ _ _ C1) as (? & ? & ? & ? & ?).
  destruct (clock_range _ _ _ _ _ _ _ C2) as (? & ? & ? & ? & ?).
  rewrite (Format_clock _ _ _ _ _ _ _ C1), (Format_clock _ _ _ _ _ _ _ C2) in E.
  rewrite !appendInt_fourDigits, !appendInt_twoDigits in E by lia.
  apply fourDigits_app_inj in E as [-> E]; [|lia..].
  apply literal_app_inj in E. apply twoDigits_app_inj in E as [-> E]; [|lia..].
  apply literal_app_inj in E. apply twoDigits_app_inj in E as [-> E]; [|lia..].
  apply literal_app_inj in E. apply twoDigits_app_inj in E as [-> E]; [|lia..].
  apply literal_app_inj in E. apply twoDigits_app_inj in E as [-> E]; [|lia..].
  apply literal_app_inj in E. apply twoDigits_app_inj in E as [-> E]; [|lia..].
  apply formatZone_inj in E; [|lia..].
  apply clock_inj; [lia|lia|exact E|congruence].
Qed.

Lemma noSlash_twoDigits (n : Z) : 0 <= n < 100 -> noSlash (twoDigits n) = true.
Proof.
  intros Hn.
  assert (Hall : allFrom (fun k => noSlash (twoDigits k)) (Z.to_nat 100) 0 = true)
    by (vm_compute; reflexivity).
  apply (allFrom_spec _ _ 0 Hall). lia.
Qed.

Lemma noSlash_fourDigits (n : Z) : 0 <= n < 10000 -> noSlash (fourDigits n) = true.
Proof.
  intros Hn.
  assert (Hall : allFrom (fun k => noSlash (fourDigits k)) (Z.to_nat 10000) 0 = true)
    by (vm_compute; reflexivity).
  apply (allFrom_spec _ _ 0 Hall). lia.
Qed.

Lemma noSlash_formatZone (z : Z) :
  -360000 < z < 360000 -> noSlash (formatZone z) = true.
Proof.
  intros Hz. unfold formatZone. destruct (z =? 0); [reflexivity|].
  pose proof (Z.quot_le_mono z 359999 60 ltac:(lia) ltac:(lia)) as Hup.
  pose proof (Z.quot_le_mono (-359999) z 60 ltac:(lia) ltac:(lia)) as Hlow.
  change (Z.quot 359999 60) with 5999 in Hup.
  change (Z.quot (-359999) 60) with (-5999) in Hlow.
  set (q := Z.quot z 60) in *.
  pose proof (Z.mod_pos_bound (Z.abs q) 60 ltac:(lia)).
  assert (0 <= Z.abs q / 60 < 100).
  { split; [apply Z.div_pos|apply Z.div_lt_upper_bound]; lia. }
  rewrite !appendInt_twoDigits by lia.
  rewrite !noSlash_app, !noSlash_twoDigits by lia.
  destruct (q <? 0); reflexivity.
Qed.

Lemma noSlash_Format (t : Time) : printable t = true -> noSlash (Format t) = true.
Proof.
  unfold printable. intros P.
  destruct (clock t) as [[[[[y m] d] h] n] s] eqn:C.
  repeat (apply andb_true_iff in P as [P ?]).
  destruct (clock_range _ _ _ _ _ _ _ C) as (? & ? & ? & ? & ?).
  rewrite (Format_clock _ _ _ _ _ _ _ C).
  rewrite !appendInt_fourDigits, !appendInt_twoDigits by lia.
  rewrite !noSlash_app, noSlash_fourDigits, !noSlash_twoDigits by lia.
  rewrite noSlash_formatZone by lia. reflexivity.
Qed.

(** ** C9: the object keys *)

(** C9, counterexample. The organisation [acme/eu] with the monitor [m1]
    and the organisation [acme] with the monitor [eu/m1] are different
    entities, and their artifacts for the slot that starts at 10:00:00 are
    stored under one key. And one entity, one slot: the batch whose earliest
    record gives its time in UTC and the batch whose earliest record gives
    the same instant at +01:00 store the slot under different keys, since
    the start is printed in the location of that record. *)
Lemma C9_counterexample :
  fmap (map Key ∘ calls)
       (compileMonitorData FILE_DURATION
          [mkMonitorData "m1" "2023-03-01T10:02:30Z" "acme/eu" (Some [])] acceptAll)
  = Some ["acme/eu/m1/2023-03-01T10:00:00Z-data.json"]
  /\ fmap (map Key ∘ calls)
          (compileMonitorData FILE_DURATION
             [mkMonitorData "eu/m1" "2023-03-01T10:02:30Z" "acme" (Some [])] acceptAll)
     = Some ["acme/eu/m1/2023-03-01T10:00:00Z-data.json"]
  /\ instant (sample "2023-03-01T10:02:30Z")
     = instant (sample "2023-03-01T11:02:30+01:00")
  /\ fmap (map Key ∘ calls)
          (compileMonitorData FILE_DURATION
             [sample "2023-03-01T10:02:30Z"] acceptAll)
     = Some ["org1/m1/2023-03-01T10:00:00Z-data.json"]
  /\ fmap (map Key ∘ calls)
          (compileMonitorData FILE_DURATION
             [sample "2023-03-01T11:02:30+01:00"] acceptAll)
     = Some ["org1/m1/2023-03-01T11:00:00+01:00-data.json"].
Proof. repeat split; vm_compute; reflexivity. Qed.

(** C9, as amended. The key is the function [filename] of the
    organisation, the monitor and the start of the slot as a [Time], that
    is, the instant together with the location of the earliest record of
    the batch. Among monitors whose identifiers hold no slash, and starts
    that are printable, equal keys come from equal organisations, equal
    monitors and equal starts. *)
Theorem C9_key_tells_entity_and_start_apart
    (orgId1 monitorId1 orgId2 monitorId2 : string) (start1 start2 : Time) :
  noSlash monitorId1 = true -> noSlash monitorId2 = true ->
  printable start1 = true -> printable start2 = true ->
  filename orgId1 monitorId1 start1 = filename orgId2 monitorId2 start2 ->
  orgId1 = orgId2 /\ monitorId1 = monitorId2 /\ start1 = start2.
Proof.
  intros Hm1 Hm2 P1 P2 E. unfold filename in E.
  apply key_parts in E as (Eo & Em & Ef);
    [|assumption|assumption|apply noSlash_Format; assumption..].
  repeat split; try assumption. apply Format_inj; assumption.
Qed.

Lemma C9_witness :
  "org1" = "org1" /\ "m1" = "m1"
  /\ mkTime 63813261600000000000 0 = mkTime 63813261600000000000 0.
Proof.
  apply (C9_key_tells_entity_and_start_apart
           "org1" "m1" "org1" "m1"
           (mkTime 63813261600000000000 0) (mkTime 63813261600000000000 0));
    reflexivity.
Defined.

(** ** C8 and C10: the artifacts that are written *)

Section Artifacts.

Context `{SliceSorter}.

(** Every request of a run is the one made for a slot of the run that has a
    record. *)
Lemma compileMonitorData_call (D : Duration) (dataArray : list MonitorData)
    (client : S3Client) (trace : list effect) (input : PutObjectInput) :
  compileMonitorData D dataArray client = Some trace ->
  In (CallPutObject input) trace ->
  exists ss s first rest,
    slots D dataArray = Some ss /\ In s ss
    /\ splitDataArray s = first :: rest
    /\ input
       = mkPutObjectInput BUCKET_NAME
           (filename (OrgId first) (MonitorId first) (slotStartTime s))
           (marshalCompiledMonitorData
              (mkCompiledMonitorData (MonitorId first) (OrgId first)
                 (Format (slotStartTime s))
                 (map entryOf (splitDataArray s)))).
Proof.
  unfold compileMonitorData. intros Hrun Hin.
  destruct (bounds D _) as [[rd ru]|]; [|discriminate].
  cbn [mbind option_bind] in Hrun.
  destruct (slots D dataArray) as [ss|]; [|discriminate].
  cbn [mbind option_bind] in Hrun. injection Hrun as <-.
  apply in_app_iff in Hin as [Hin|[Hin|[]]]; [|discriminate].
  apply in_concat in Hin as (t & Ht & Hin).
  apply in_map_iff in Ht as (s & <- & Hs).
  destruct (compileAndStoreinS3_call _ _ _ _ Hin) as (first & rest & E & ->).
  exists ss, s, first, rest. repeat split; assumption.
Qed.

(** C8. A slot with no record has no effect: [compileAndStoreinS3] returns
    before it builds anything, so nothing is handed to the sink. Every
    request of a run comes from a slot with at least one record, and its
    body holds one entry for each record of that slot. *)
Theorem C8_no_artifact_for_empty_slot (D : Duration)
    (dataArray : list MonitorData) (client : S3Client) :
  (forall slotStartTime : Time,
      compileAndStoreinS3 client [] slotStartTime = [])
  /\ (forall (trace : list effect) (input : PutObjectInput),
         compileMonitorData D dataArray client = Some trace ->
         In (CallPutObject input) trace ->
         exists c : CompiledMonitorData,
           Body input = marshalCompiledMonitorData c /\ Entries c <> []).
Proof.
  split; [reflexivity|].
  intros trace input Hrun Hin.
  destruct (compileMonitorData_call _ _ _ _ _ Hrun Hin)
    as (ss & s & first & rest & _ & _ & E & ->).
  eexists. split; [reflexivity|]. cbn [Entries]. rewrite E. discriminate.
Qed.


End Artifacts.

(** A record decoded from an item without values carries the nil map, and
    its entry is written with [null] under [monitorId]. *)
Example nil_values_written_as_null :
  fmap (map (fun input => member "entries" (Body input)) ∘ calls)
       (compileMonitorData FILE_DURATION
          [mkMonitorData "m1" "2023-03-01T10:02:30Z" "org1" None] acceptAll)
  = Some [Some (JArray [JObject [("timestamp", JString "2023-03-01T10:02:30Z");
                                 ("monitorId", JNull)]])].
Proof. vm_compute. reflexivity. Qed.

Lemma C8_witness :
  exists c : CompiledMonitorData,
    Body (mkPutObjectInput BUCKET_NAME "org1/m1/2023-03-01T10:00:00Z-data.json"
            (marshalCompiledMonitorData
               (mkCompiledMonitorData "m1" "org1" "2023-03-01T10:00:00Z"
                  [entryOf (sample "2023-03-01T10:02:30Z")])))
    = marshalCompiledMonitorData c
    /\ Entries c <> [].
Proof.
  apply (proj2 (C8_no_artifact_for_empty_slot FILE_DURATION
                  [sample "2023-03-01T10:02:30Z"] acceptAll)
           [CallPutObject
              (mkPutObjectInput BUCKET_NAME "org1/m1/2023-03-01T10:00:00Z-data.json"
                 (marshalCompiledMonitorData
                    (mkCompiledMonitorData "m1" "org1" "2023-03-01T10:00:00Z"
                       [entryOf (sample "2023-03-01T10:02:30Z")])));
            LogArchived "org1" "m1" (mkTime 63813261600000000000 0);
            PrintStartEnd (mkTime 63813261600000000000 0)
                          (mkTime 63813261900000000000 0)]).
  - vm_compute. reflexivity.
  - left. reflexivity.
Defined.


(** * Further properties of the program *)

(** ** The grouping by monitor *)

Lemma groupByKey_fold_lookup {A : Type} (key : A -> string) (l : list A)
    (m : gmap string (list A)) (k : string) :
  fold_left (fun m a => <[key a := default [] (m !! key a) ++ [a]]> m) l m !! k
  = match List.filter (fun a => String.eqb (key a) k) l with
    | [] => m !! k
    | g => Some (default [] (m !! k) ++ g)
    end.
Proof.
  revert m. induction l as [|a l IH]; intros m; [reflexivity|].
  cbn [fold_left List.filter]. rewrite IH.
  destruct (String.eqb_spec (key a) k) as [E|N].
  - rewrite E, lookup_insert_eq. unfold default. cbn [from_option id].
    destruct (List.filter _ l); rewrite <- ?app_assoc; reflexivity.
  - rewrite lookup_insert_ne by exact N. reflexivity.
Qed.

Lemma groupByKey_lookup {A : Type} (key : A -> string) (l : list A) (k : string) :
  groupByKey key l !! k
  = match List.filter (fun a => String.eqb (key a) k) l with
    | [] => None
    | g => Some g
    end.
Proof.
  unfold groupByKey. rewrite groupByKey_fold_lookup, lookup_empty. reflexivity.
Qed.

Lemma groupByMonitor_groupByKey (l : list MonitorData) :
  groupByMonitor l = groupByKey MonitorId l.
Proof. reflexivity. Qed.

(** X6. The map [HandleRequest] builds holds, under each monitor id that
    occurs in the fetched records, exactly the records of that monitor in
    the order they were fetched, and holds nothing under any other id. *)
Theorem X6_groupByMonitor_lookup (allMonitorData : list MonitorData)
    (monitorId : string) :
  groupByMonitor allMonitorData !! monitorId
  = match recordsOf monitorId allMonitorData with
    | [] => None
    | dataArray => Some dataArray
    end.
Proof. rewrite groupByMonitor_groupByKey. apply groupByKey_lookup. Qed.



(** ** The bounds and the slots of [compileMonitorData] *)

Lemma alignedEnd_least (D : Duration) (t b : Z) :
  0 < D -> aligned D b -> t <= b -> alignedEnd D t <= b.
Proof.
  intros HD Hb Hle. unfold alignedEnd.
  destruct (Z.eqb_spec (t mod D) 0) as [E|N]; [exact Hle|].
  pose proof (alignedStart_bounds D t HD) as Hbt.
  destruct (Z.le_gt_cases (alignedStart D t + D) b) as [|Hgt]; [assumption|].
  exfalso. destruct (Z.eq_dec b t) as [->|Hne]; [exact (N Hb)|].
  apply (aligned_gap D (alignedStart D t) b HD);
    [apply alignedStart_aligned, HD | exact Hb | lia].
Qed.

(** The batch of the examples of this part, and its slots. *)
Definition batch : list MonitorData :=
  [sample "2023-03-01T10:07:10Z"; sample "2023-03-01T10:05:00Z";
   sample "2023-03-01T10:02:30Z"].

Definition batchSlots : list Slot :=
  Eval vm_compute in default [] (slots FILE_DURATION batch).

Definition batchSlot0 : Slot :=
  Eval vm_compute in default (mkSlot zeroTime zeroTime []) (head batchSlots).

Lemma batch_slots : slots FILE_DURATION batch = Some batchSlots.
Proof. vm_compute. reflexivity. Qed.

(** X2. For a positive duration, the upper bound of the loop is the last
    timestamp moved to the least multiple of the duration that is not
    before it: a timestamp on a boundary stays where it is. The bound keeps
    the location of the timestamp. *)
Theorem X2_roundedUpEndTime_least_boundary (D : Duration) (lastTimestamp : Time) :
  0 < D ->
  zone (roundedUpEndTime D lastTimestamp) = zone lastTimestamp
  /\ aligned D (abs (roundedUpEndTime D lastTimestamp))
  /\ abs lastTimestamp <= abs (roundedUpEndTime D lastTimestamp)
  /\ forall b, aligned D b -> abs lastTimestamp <= b ->
               abs (roundedUpEndTime D lastTimestamp) <= b.
Proof.
  intros HD. rewrite roundedUpEndTime_abs by exact HD.
  split; [apply roundedUpEndTime_zone|]. split; [apply alignedEnd_aligned, HD|].
  split; [apply alignedEnd_bounds, HD|].
  intros b Hb Hle. apply alignedEnd_least; assumption.
Qed.

Lemma X2_witness :
  zone (roundedUpEndTime FILE_DURATION (mkTime 430000000000 3600)) = 3600
  /\ aligned FILE_DURATION (abs (roundedUpEndTime FILE_DURATION (mkTime 430000000000 3600)))
  /\ 430000000000 <= abs (roundedUpEndTime FILE_DURATION (mkTime 430000000000 3600))
  /\ forall b, aligned FILE_DURATION b -> 430000000000 <= b ->
               abs (roundedUpEndTime FILE_DURATION (mkTime 430000000000 3600)) <= b.
Proof.
  apply (X2_roundedUpEndTime_least_boundary FILE_DURATION (mkTime 430000000000 3600)).
  reflexivity.
Defined.

Section Slots.

Context `{SliceSorter}.

(** X1. On a non-empty slice and with a positive duration the loop of
    [compileMonitorData] ends. With [lo] the least and [hi] the greatest
    instant of the slice, its slots start at the floor of [lo], each is one
    duration long and starts where the one before it ends, and together
    they reach the least boundary not before [hi]. *)
Theorem X1_slots_from_floor_to_boundary (D : Duration)
    (dataArray : list MonitorData) :
  0 < D -> dataArray <> [] ->
  exists (lo hi : Z) (ss : list Slot),
    leastInstant lo dataArray /\ greatestInstant hi dataArray
    /\ slots D dataArray = Some ss
    /\ alignedStart D lo + Z.of_nat (length ss) * D = alignedEnd D hi
    /\ forall (k : nat) (s : Slot),
         ss !! k = Some s ->
         abs (slotStartTime s) = alignedStart D lo + Z.of_nat k * D
         /\ abs (slotSplitTime s) = abs (slotStartTime s) + D.
Proof.
  intros HD Hne.
  destruct (bounds_sorted D dataArray HD Hne)
    as (lo & hi & _ & _ & Hlo & Hhi & _).
  destruct (slots_slotList D dataArray lo hi HD Hlo Hhi) as (rd & _ & E).
  exists lo, hi. eexists. split; [exact Hlo|]. split; [exact Hhi|].
  split; [exact E|].
  destruct (slots_plan D dataArray lo hi _ HD Hlo Hhi E) as [Hlen Hk].
  split; [exact Hlen|]. intros k s Hs. destruct (Hk k s Hs) as [-> ->].
  split; reflexivity.
Qed.

(** X3. With a positive duration, a record of the slice whose instant is
    not a multiple of the duration is in the records of exactly one slot,
    the slot that starts at the floor of its instant. *)
Theorem X3_record_off_boundary_in_one_slot (D : Duration)
    (dataArray : list MonitorData) (ss : list Slot) (r : MonitorData) :
  0 < D -> slots D dataArray = Some ss -> In r dataArray ->
  ~ aligned D (instant r) ->
  exists (k : nat) (s : Slot),
    ss !! k = Some s
    /\ In r (splitDataArray s)
    /\ abs (slotStartTime s) = alignedStart D (instant r)
    /\ forall (j : nat) (s' : Slot),
         ss !! j = Some s' -> In r (splitDataArray s') -> j = k.
Proof. apply slots_assign_off_boundary. Qed.

(** X4. With a positive duration, a record whose instant is a multiple of
    the duration is in the records of no slot; so is every record whose
    timestamp does not parse, which is read as the zero time. *)
Theorem X4_record_on_boundary_in_no_slot (D : Duration)
    (dataArray : list MonitorData) (ss : list Slot) (r : MonitorData) :
  0 < D -> slots D dataArray = Some ss ->
  aligned D (instant r) \/ Parse (Timestamp r) = None ->
  forall s, In s ss -> ~ In r (splitDataArray s).
Proof.
  intros HD Hss [Ha|Hp].
  - apply (slots_drop_boundary D dataArray ss r HD Hss Ha).
  - apply (unparseable_in_no_slot D dataArray ss r HD Hp Hss).
Qed.

(** X10. The start of every slot of a run, which is printed in the key and
    in the [startTime] of its artifact, is in the location of a record of
    the slice with the least instant. *)
Theorem X10_slot_start_in_location_of_earliest (D : Duration)
    (dataArray : list MonitorData) (ss : list Slot) (s : Slot) :
  slots D dataArray = Some ss -> In s ss ->
  exists first,
    In first dataArray
    /\ (forall r, In r dataArray -> instant first <= instant r)
    /\ zone (slotStartTime s) = zone (parsedTimestamp first).
Proof. apply slots_start_zone. Qed.

End Slots.

Lemma X1_witness :
  exists (lo hi : Z) (ss : list Slot),
    leastInstant lo batch /\ greatestInstant hi batch
    /\ slots FILE_DURATION batch = Some ss
    /\ alignedStart FILE_DURATION lo + Z.of_nat (length ss) * FILE_DURATION
       = alignedEnd FILE_DURATION hi
    /\ forall (k : nat) (s : Slot),
         ss !! k = Some s ->
         abs (slotStartTime s) = alignedStart FILE_DURATION lo + Z.of_nat k * FILE_DURATION
         /\ abs (slotSplitTime s) = abs (slotStartTime s) + FILE_DURATION.
Proof.
  apply (X1_slots_from_floor_to_boundary FILE_DURATION batch);
    [reflexivity|discriminate].
Defined.

Lemma X3_witness :
  exists (k : nat) (s : Slot),
    batchSlots !! k = Some s
    /\ In (sample "2023-03-01T10:07:10Z") (splitDataArray s)
    /\ abs (slotStartTime s)
       = alignedStart FILE_DURATION (instant (sample "2023-03-01T10:07:10Z"))
    /\ forall (j : nat) (s' : Slot),
         batchSlots !! j = Some s' ->
         In (sample "2023-03-01T10:07:10Z") (splitDataArray s') -> j = k.
Proof.
  apply (X3_record_off_boundary_in_one_slot FILE_DURATION batch batchSlots
           (sample "2023-03-01T10:07:10Z")).
  - reflexivity.
  - vm_compute. reflexivity.
  - left. reflexivity.
  - vm_compute. discriminate.
Defined.

Lemma X4_witness :
  ~ In (sample "2023-03-01T10:05:00Z") (splitDataArray batchSlot0).
Proof.
  apply (X4_record_on_boundary_in_no_slot FILE_DURATION batch batchSlots
           (sample "2023-03-01T10:05:00Z")).
  - reflexivity.
  - vm_compute. reflexivity.
  - left. vm_compute. reflexivity.
  - left. reflexivity.
Defined.

Lemma X10_witness :
  exists first,
    In first batch
    /\ (forall r, In r batch -> instant first <= instant r)
    /\ zone (slotStartTime batchSlot0) = zone (parsedTimestamp first).
Proof.
  apply (X10_slot_start_in_location_of_earliest FILE_DURATION batch batchSlots
           batchSlot0);
    [vm_compute; reflexivity | left; reflexivity].
Defined.

(** ** How many entries a run writes *)

Lemma filter_length_Permutation {A : Type} (f : A -> bool) (l l' : list A) :
  l ≡ₚ l' -> length (List.filter f l) = length (List.filter f l').
Proof.
  induction 1 as [|x l l' Hp IH|x y l|l l' l'' Hp IH Hp' IH']; simpl.
  - reflexivity.
  - destruct (f x); simpl; congruence.
  - destruct (f x), (f y); reflexivity.
  - congruence.
Qed.

Lemma slotList_nil_records (n : nat) (D : Duration) (splitTime : Time) :
  length (concat (map splitDataArray (slotList n D [] splitTime))) = O.
Proof.
  revert splitTime. induction n as [|n IH]; intros sp; [reflexivity|].
  cbn [slotList map concat splitDataArray]. rewrite length_app, IH. reflexivity.
Qed.

Lemma slotList_cons_records (n : nat) (D : Duration) (x : MonitorData)
    (l : list MonitorData) (splitTime : Time) :
  length (concat (map splitDataArray (slotList n D (x :: l) splitTime)))
  = (hits n D (abs splitTime) (instant x)
     + length (concat (map splitDataArray (slotList n D l splitTime))))%nat.
Proof.
  revert splitTime. induction n as [|n IH]; intros sp; [reflexivity|].
  cbn [slotList map concat splitDataArray hits]. rewrite !length_app, IH.
  cbn [abs Add]. unfold splitData at 1. cbn [List.filter].
  fold (splitData D l sp).
  unfold After, Before, instant. cbn [abs Add].
  replace (abs sp + - D) with (abs sp - D) by lia.
  destruct ((abs sp - D <? abs (parsedTimestamp x))
            && (abs (parsedTimestamp x) <? abs sp)); simpl; lia.
Qed.

Lemma hits_spec (n : nat) (D : Duration) (splitTime t : Z) :
  0 < D ->
  hits n D splitTime t
  = if (splitTime - D <? t) && (t <? splitTime - D + Z.of_nat n * D)
       && negb ((t - splitTime) mod D =? 0)
    then 1%nat else 0%nat.
Proof.
  intros HD. revert splitTime. induction n as [|n IH]; intros sp.
  - cbn [hits]. destruct (Z.ltb_spec (sp - D) t), (Z.ltb_spec t (sp - D + Z.of_nat 0 * D));
      simpl; try reflexivity; lia.
  - cbn [hits]. rewrite IH.
    assert (Hmod : (t - (sp + D)) mod D = (t - sp) mod D).
    { replace (t - (sp + D)) with (t - sp + (-1) * D) by lia. apply Z.mod_add. lia. }
    rewrite Hmod.
    assert (Hin : sp - D < t < sp -> (t - sp) mod D <> 0).
    { intros Ht Hz.
      apply (aligned_gap D 0 (t - sp + D) HD); unfold aligned;
        [reflexivity| |lia].
      replace (t - sp + D) with (t - sp + 1 * D) by lia.
      rewrite Z.mod_add by lia. exact Hz. }
    assert (Heq : t = sp -> (t - sp) mod D = 0).
    { intros ->. rewrite Z.sub_diag. apply Z.mod_0_l. lia. }
    set (m := (t - sp) mod D) in *.
    destruct (Z.ltb_spec (sp - D) t), (Z.ltb_spec t sp),
      (Z.ltb_spec (sp + D - D) t),
      (Z.ltb_spec t (sp + D - D + Z.of_nat n * D)),
      (Z.ltb_spec t (sp - D + Z.of_nat (S n) * D)),
      (Z.eqb_spec m 0); simpl; try reflexivity; lia.
Qed.

Lemma slotList_records_count (n : nat) (D : Duration) (l : list MonitorData)
    (splitTime : Time) :
  0 < D ->
  length (concat (map splitDataArray (slotList n D l splitTime)))
  = length (List.filter
              (fun x =>
                 (abs splitTime - D <? instant x)
                 && (instant x <? abs splitTime - D + Z.of_nat n * D)
                 && negb ((instant x - abs splitTime) mod D =? 0)) l).
Proof.
  intros HD. induction l as [|x l IH]; [apply slotList_nil_records|].
  rewrite slotList_cons_records, IH, hits_spec by exact HD.
  cbn [List.filter]. destruct (_ && _ && _); reflexivity.
Qed.

Lemma compileAndStoreinS3_entryCount (client : S3Client)
    (splitDataArray : list MonitorData) (slotStartTime : Time) :
  list_sum (map entryCount (calls (compileAndStoreinS3 client splitDataArray
                                                       slotStartTime)))
  = length splitDataArray.
Proof.
  unfold compileAndStoreinS3. destruct splitDataArray as [|first rest]; [reflexivity|].
  cbv zeta. destruct (client _); cbn [calls omap list_omap map list_sum fold_right];
    unfold entryCount;
    cbn [Body marshalCompiledMonitorData member List.find fst snd String.eqb
         Ascii.eqb Bool.eqb fmap option_fmap option_map Entries];
    cbn [map length]; rewrite !length_map; lia.
Qed.

Section Count.

Context `{SliceSorter}.

(** The records of the slots of a run, counted: those of the slice that are
    off the boundaries. *)
Lemma slots_records_count (D : Duration) (dataArray : list MonitorData)
    (ss : list Slot) :
  0 < D -> slots D dataArray = Some ss ->
  length (concat (map splitDataArray ss))
  = length (List.filter (offBoundary D) dataArray).
Proof.
  intros HD Hss.
  assert (Hne : dataArray <> []).
  { intros ->. unfold slots in Hss.
    pose proof (sorted_Permutation []) as Hp. apply Permutation_nil_r in Hp.
    rewrite Hp in Hss. discriminate. }
  destruct (bounds_sorted D dataArray HD Hne)
    as (lo & hi & _ & _ & Hlo & Hhi & _).
  destruct (slots_slotList D dataArray lo hi HD Hlo Hhi) as (rd & Hrd & E).
  destruct (slots_plan D dataArray lo hi ss HD Hlo Hhi Hss) as [Hlen _].
  rewrite E in Hss. injection Hss as <-. rewrite slotList_length in Hlen.
  rewrite slotList_records_count by exact HD.
  rewrite <- (filter_length_Permutation (offBoundary D) _ _
                (sorted_Permutation dataArray)).
  f_equal. apply filter_ext_in. intros x Hx. apply (proj1 (sorted_In _ _)) in Hx.
  cbn [abs Add]. rewrite Hrd.
  replace (alignedStart D lo + D - D
           + Z.of_nat (Z.to_nat ((alignedEnd D hi - alignedStart D lo) / D)) * D)
    with (alignedEnd D hi) by lia.
  replace (alignedStart D lo + D - D) with (alignedStart D lo) by lia.
  pose proof (proj2 Hlo x Hx) as Hlox. pose proof (proj2 Hhi x Hx) as Hhix.
  pose proof (alignedStart_bounds D lo HD) as Hblo.
  pose proof (alignedEnd_bounds D hi HD) as Hbhi.
  destruct (aligned_exists D _ HD (alignedStart_aligned D lo HD)) as [ql Eql].
  assert (Hmod : (instant x - (alignedStart D lo + D)) mod D = instant x mod D).
  { rewrite Eql.
    replace (instant x - (ql * D + D)) with (instant x + (- ql - 1) * D) by lia.
    apply Z.mod_add. lia. }
  rewrite Hmod. unfold offBoundary.
  destruct (Z.eqb_spec (instant x mod D) 0) as [Ez|Nz];
    [rewrite andb_false_r; reflexivity|].
  rewrite andb_true_r.
  assert (alignedStart D lo < instant x).
  { destruct (Z.eq_dec (alignedStart D lo) (instant x)) as [Eq|]; [|lia].
    exfalso. apply Nz. rewrite <- Eq. apply alignedStart_aligned, HD. }
  assert (instant x < alignedEnd D hi).
  { destruct (Z.eq_dec (alignedEnd D hi) (instant x)) as [Eq|]; [|lia].
    exfalso. apply Nz. rewrite <- Eq. apply alignedEnd_aligned, HD. }
  apply andb_true_iff. split; apply Z.ltb_lt; assumption.
Qed.

(** X5. With a positive duration, the artifacts of a run of
    [compileMonitorData] hold, all together, one entry for each record of
    the slice whose instant is not a multiple of the duration: no record is
    written twice, and the records on a boundary are the only ones left
    out. *)
Theorem X5_entries_written_count (D : Duration) (dataArray : list MonitorData)
    (client : S3Client) (trace : list effect) :
  0 < D -> compileMonitorData D dataArray client = Some trace ->
  list_sum (map entryCount (calls trace))
  = length (List.filter (offBoundary D) dataArray).
Proof.
  intros HD Hrun. unfold compileMonitorData in Hrun.
  destruct (bounds D _) as [[rd ru]|]; [|discriminate].
  cbn [mbind option_bind] in Hrun.
  destruct (slots D dataArray) as [ss|] eqn:Hss; [|discriminate].
  cbn [mbind option_bind] in Hrun. injection Hrun as <-.
  rewrite <- (slots_records_count D dataArray ss HD Hss).
  rewrite calls_app. cbn [calls omap list_omap]. rewrite app_nil_r.
  clear Hss. induction ss as [|s ss IH]; [reflexivity|].
  cbn [map concat]. rewrite calls_app, map_app, list_sum_app, length_app.
  rewrite compileAndStoreinS3_entryCount. f_equal. exact IH.
Qed.

End Count.

Lemma X5_witness :
  list_sum (map entryCount
              (calls (default [] (compileMonitorData FILE_DURATION batch acceptAll))))
  = length (List.filter (offBoundary FILE_DURATION) batch).
Proof.
  apply (X5_entries_written_count FILE_DURATION batch acceptAll).
  - reflexivity.
  - vm_compute. reflexivity.
Defined.

(** ** The artifacts of a run of [HandleRequest] *)


Section Handler.

Context `{SliceSorter}.



End Handler.





(** ** The keys of one run *)

Lemma filename_start (o1 m1 o2 m2 : string) (t1 t2 : Time) :
  printable t1 = true -> printable t2 = true ->
  filename o1 m1 t1 = filename o2 m2 t2 -> t1 = t2.
Proof.
  intros P1 P2 E. unfold filename in E.
  assert (E' : (o1 +:+ "/" +:+ m1) +:+ "/" +:+ (Format t1 +:+ "-data.json")
               = (o2 +:+ "/" +:+ m2) +:+ "/" +:+ (Format t2 +:+ "-data.json")).
  { rewrite !append_assoc. exact E. }
  apply split_at_last_slash in E' as [_ Ef];
    [|rewrite noSlash_app, noSlash_Format by assumption; reflexivity..].
  apply append_inv_tail in Ef. apply Format_inj; assumption.
Qed.

Lemma slotList_keys_NoDup (client : S3Client) (ss : list Slot) :
  NoDup (map slotStartTime ss) ->
  forallb (fun s => printable (slotStartTime s)) ss = true ->
  NoDup (map Key
           (calls (concat (map (fun s => compileAndStoreinS3 client
                                           (splitDataArray s) (slotStartTime s))
                               ss)))).
Proof.
  induction ss as [|s ss IH]; intros Hnd Hp; [constructor|].
  cbn [map] in Hnd. apply NoDup_cons in Hnd as [Hs Hnd].
  cbn [forallb] in Hp. apply andb_true_iff in Hp as [Hps Hp].
  cbn [map concat]. rewrite calls_app, map_app.
  apply NoDup_app. split; [|split; [|apply IH; assumption]].
  - unfold compileAndStoreinS3. destruct (splitDataArray s); [constructor|].
    cbv zeta. destruct (client _); cbn [calls omap list_omap map];
      apply NoDup_singleton.
  - intros key Hk1 Hk2.
    apply list_elem_of_In, in_map_iff in Hk1 as (i1 & <- & Hi1).
    apply list_elem_of_In, in_map_iff in Hk2 as (i2 & Ek & Hi2).
    apply In_calls in Hi1, Hi2.
    destruct (compileAndStoreinS3_call _ _ _ _ Hi1) as (f1 & r1 & _ & ->).
    apply in_concat in Hi2 as (t & Ht & Hi2).
    apply in_map_iff in Ht as (s' & <- & Hs').
    destruct (compileAndStoreinS3_call _ _ _ _ Hi2) as (f2 & r2 & _ & ->).
    cbn [Key] in Ek. apply filename_start in Ek.
    + apply Hs. rewrite <- Ek. apply list_elem_of_In, in_map, Hs'.
    + rewrite forallb_forall in Hp. apply Hp, Hs'.
    + exact Hps.
Qed.

Section Keys.

Context `{SliceSorter}.

Lemma slots_starts_NoDup (D : Duration) (dataArray : list MonitorData)
    (ss : list Slot) :
  0 < D -> slots D dataArray = Some ss -> NoDup (map slotStartTime ss).
Proof.
  intros HD Hss.
  assert (Hne : dataArray <> []).
  { intros ->. unfold slots in Hss.
    pose proof (sorted_Permutation []) as Hp. apply Permutation_nil_r in Hp.
    rewrite Hp in Hss. discriminate. }
  destruct (bounds_sorted D dataArray HD Hne)
    as (lo & hi & _ & _ & Hlo & Hhi & _).
  destruct (slots_plan D dataArray lo hi ss HD Hlo Hhi Hss) as [_ Hplan].
  apply NoDup_alt. intros i j t Hi Hj.
  change (map slotStartTime ss) with (slotStartTime <$> ss) in Hi, Hj.
  rewrite list_lookup_fmap in Hi, Hj.
  destruct (ss !! i) as [si|] eqn:Ei; [|discriminate].
  destruct (ss !! j) as [sj|] eqn:Ej; [|discriminate].
  cbn in Hi, Hj. injection Hi as Hi. injection Hj as Hj.
  destruct (Hplan i si Ei) as [Hai _]. destruct (Hplan j sj Ej) as [Haj _].
  rewrite Hi in Hai. rewrite Hj in Haj. nia.
Qed.

(** X9. With a positive duration, the requests of one run of
    [compileMonitorData] go to pairwise different keys, provided the starts
    of its slots are printable (whole seconds, whole-minute location, years
    of four digits): a run never overwrites one of its own artifacts. *)
Theorem X9_keys_of_a_run_differ (D : Duration) (dataArray : list MonitorData)
    (client : S3Client) (ss : list Slot) (trace : list effect) :
  0 < D -> slots D dataArray = Some ss ->
  compileMonitorData D dataArray client = Some trace ->
  forallb (fun s => printable (slotStartTime s)) ss = true ->
  NoDup (map Key (calls trace)).
Proof.
  intros HD Hss Hrun Hp. unfold compileMonitorData in Hrun.
  destruct (bounds D _) as [[rd ru]|]; [|discriminate].
  cbn [mbind option_bind] in Hrun. rewrite Hss in Hrun.
  cbn [mbind option_bind] in Hrun. injection Hrun as <-.
  rewrite calls_app. cbn [calls omap list_omap]. rewrite app_nil_r.
  apply slotList_keys_NoDup; [|exact Hp].
  apply (slots_starts_NoDup D dataArray ss HD Hss).
Qed.

End Keys.

Lemma X9_witness :
  NoDup (map Key (calls (default [] (compileMonitorData FILE_DURATION batch
                                                        acceptAll)))).
Proof.
  apply (X9_keys_of_a_run_differ FILE_DURATION batch acceptAll batchSlots).
  - reflexivity.
  - vm_compute. reflexivity.
  - vm_compute. reflexivity.
  - vm_compute. reflexivity.
Defined.

(** ** [fetchAllMonitorData] and what [HandleRequest] does with a failure *)

Section FetchProperties.

Context {Item : Type}.
Variable UnmarshalMap : Item -> MonitorData + string.

Lemma unmarshalItems_FetchOk (items : list Item) (result records : list MonitorData) :
  unmarshalItems UnmarshalMap items result = FetchOk records
  <-> exists decoded,
        Forall2 (fun item r => UnmarshalMap item = inl r) items decoded
        /\ records = result ++ decoded.
Proof.
  revert result. induction items as [|item rest IH]; intros result; cbn [unmarshalItems].
  - split.
    + intros [= <-]. exists []. split; [constructor|]. rewrite app_nil_r. reflexivity.
    + intros (decoded & Hd & ->). inversion Hd. rewrite app_nil_r. reflexivity.
  - destruct (UnmarshalMap item) as [r|err] eqn:E.
    + rewrite IH. split.
      * intros (decoded & Hd & ->). exists (r :: decoded).
        split; [constructor; assumption|]. rewrite <- app_assoc. reflexivity.
      * intros (decoded & Hd & ->).
        inversion Hd as [|? r' ? decoded' Hr Hrest]; subst.
        assert (r' = r) by congruence. subst r'.
        exists decoded'. split; [exact Hrest|]. rewrite <- app_assoc. reflexivity.
    + split; [discriminate|].
      intros (decoded & Hd & _). inversion Hd; subst. congruence.
Qed.

Lemma unmarshalItems_first_error (good : list Item) (bad : Item)
    (rest : list Item) (result : list MonitorData) (err : string) :
  Forall (fun item => exists r, UnmarshalMap item = inl r) good ->
  UnmarshalMap bad = inr err ->
  unmarshalItems UnmarshalMap (good ++ bad :: rest) result = FetchError err.
Proof.
  intros Hgood Hbad. revert result.
  induction Hgood as [|item good [r Hr] Hgood IH]; intros result;
    cbn [app unmarshalItems].
  - rewrite Hbad. reflexivity.
  - rewrite Hr. apply IH.
Qed.

(** X11. [fetchAllMonitorData] returns records only when the filter
    expression was built, the scan answered, and every scanned item
    decodes; the records are then the decoded items, one for one and in
    the order of the scan. *)
Theorem X11_fetch_returns_all_items_decoded (buildErr : option string)
    (out : ScanOutput Item) (records : list MonitorData) :
  fetchAllMonitorData UnmarshalMap buildErr out = FetchOk records
  <-> buildErr = None
      /\ exists items,
           out = ScanOk items
           /\ Forall2 (fun item r => UnmarshalMap item = inl r) items records.
Proof.
  unfold fetchAllMonitorData. destruct buildErr as [e|].
  { split; [discriminate|]. intros [[=] _]. }
  destruct out as [items|e].
  - rewrite unmarshalItems_FetchOk. split.
    + intros (decoded & Hd & ->). split; [reflexivity|]. exists items.
      split; [reflexivity|exact Hd].
    + intros (_ & items' & [= <-] & Hd). exists records. split; [exact Hd|reflexivity].
  - split; [discriminate|]. intros (_ & items & [=] & _).
Qed.

End FetchProperties.

Section FetchAndHandle.

Context `{SliceSorter} {Item : Type}.
Variable UnmarshalMap : Item -> MonitorData + string.

Lemma HandleRequest_nothing_fetched (D : Duration) (event : Event)
    (client : S3Client) (fetched : Fetched) :
  match fetched with FetchOk items => items = [] | FetchError _ => True end ->
  HandleRequest D event fetched client
  = Some ([LogStarting], ("Hello " +:+ Name event, None)).
Proof.
  intros Hf. unfold HandleRequest.
  assert (E : match fetched with FetchOk items => items | FetchError _ => [] end
              = []) by (destruct fetched; [exact Hf|reflexivity]).
  rewrite E. unfold groupByMonitor. cbn [fold_left].
  rewrite map_to_list_empty. reflexivity.
Qed.

(** X12. When one scanned item does not decode, [fetchAllMonitorData]
    returns the error of the first such item and no record, and
    [HandleRequest] then does what it does on an empty table: it writes its
    start line, makes no request to the sink, although the items before
    and after decode, and returns the greeting with a nil error. *)
Theorem X12_one_bad_item_nothing_archived (D : Duration) (event : Event)
    (client : S3Client) (good : list Item) (bad : Item) (rest : list Item)
    (err : string) :
  Forall (fun item => exists r, UnmarshalMap item = inl r) good ->
  UnmarshalMap bad = inr err ->
  fetchAllMonitorData UnmarshalMap None (ScanOk (good ++ bad :: rest))
  = FetchError err
  /\ HandleRequest D event
       (fetchAllMonitorData UnmarshalMap None (ScanOk (good ++ bad :: rest)))
       client
     = Some ([LogStarting], ("Hello " +:+ Name event, None)).
Proof.
  intros Hgood Hbad.
  assert (E : fetchAllMonitorData UnmarshalMap None (ScanOk (good ++ bad :: rest))
              = FetchError err).
  { apply unmarshalItems_first_error; assumption. }
  split; [exact E|]. rewrite E. apply HandleRequest_nothing_fetched. exact I.
Qed.

End FetchAndHandle.

(** An item is a timestamp here, and decodes unless it is empty. *)
Definition decodeSample (item : string) : MonitorData + string :=
  if String.eqb item "" then inr "unmarshal failed" else inl (sample item).

Lemma X12_witness :
  fetchAllMonitorData decodeSample None
    (ScanOk (["2023-03-01T10:02:30Z"] ++ "" :: ["2023-03-01T10:07:10Z"]))
  = FetchError "unmarshal failed"
  /\ HandleRequest FILE_DURATION (mkEvent "archive")
       (fetchAllMonitorData decodeSample None
          (ScanOk (["2023-03-01T10:02:30Z"] ++ "" :: ["2023-03-01T10:07:10Z"])))
       acceptAll
     = Some ([LogStarting], ("Hello " +:+ Name (mkEvent "archive"), None)).
Proof.
  apply (X12_one_bad_item_nothing_archived decodeSample FILE_DURATION
           (mkEvent "archive") acceptAll ["2023-03-01T10:02:30Z"] ""
           ["2023-03-01T10:07:10Z"] "unmarshal failed").
  - constructor; [|constructor]. exists (sample "2023-03-01T10:02:30Z"). reflexivity.
  - reflexivity.
Defined.

(** ** The first version of the handler *)

Lemma waitGroupCounter_length (m : gmap string (list main_go.MonitorData)) :
  main_go.waitGroupCounter m = Z.of_nat (length (map_to_list m)).
Proof.
  unfold main_go.waitGroupCounter.
  assert (Hgen : forall (l : list (string * list main_go.MonitorData)) (wg : Z),
             fold_left (fun wg '(_, dataArray) =>
                          let '_ := main_go.compileMonitorData dataArray in wg + 1)
                       l wg
             = wg + Z.of_nat (length l)).
  { induction l as [|[k d] l IH]; intros wg; cbn [fold_left length]; [lia|].
    rewrite IH. unfold main_go.compileMonitorData. lia. }
  rewrite Hgen. lia.
Qed.

Lemma groupByKey_nonempty {A : Type} (key : A -> string) (a : A) (l : list A) :
  groupByKey key (a :: l) <> ∅.
Proof.
  intros E. apply (f_equal (fun m => m !! key a)) in E.
  rewrite groupByKey_lookup, lookup_empty in E. cbn [List.filter] in E.
  rewrite String.eqb_refl in E. discriminate.
Qed.

(** X13. The handler of [main.go] returns, with the greeting and a nil
    error, only when no record was fetched (the fetch failed or the table
    was empty). As soon as one record is fetched it adds one to the wait
    group for each alert and starts goroutines that never call [Done], so
    it stays in [wg.Wait()] and never returns. *)
Theorem X13_first_handler_waits_forever (event : Event)
    (fetched : main_go.Fetched) :
  main_go.HandleRequest event fetched
  = match fetched with
    | main_go.FetchOk (_ :: _) => main_go.WaitsForever
    | _ => main_go.Returns ("Hello " +:+ Name event, None)
    end.
Proof.
  unfold main_go.HandleRequest. rewrite waitGroupCounter_length.
  destruct fetched as [[|a l]|err];
    try (unfold groupByKey; cbn [fold_left]; rewrite map_to_list_empty; reflexivity).
  destruct (map_to_list (groupByKey main_go.AlertId (a :: l))) as [|x xs] eqn:E.
  - apply map_to_list_empty_iff in E. destruct (groupByKey_nonempty _ _ _ E).
  - reflexivity.
Qed.

(** ** The records of a slot *)

Section SlotRecords.

Context `{SliceSorter}.

(** X8. With a positive duration, every slot of a run ends one duration
    after its start and receives exactly the records of the slice whose
    instant is strictly after its start and strictly before its end. *)
Theorem X8_slot_holds_records_strictly_inside (D : Duration)
    (dataArray : list MonitorData) (ss : list Slot) (s : Slot) (r : MonitorData) :
  0 < D -> slots D dataArray = Some ss -> In s ss ->
  abs (slotSplitTime s) = abs (slotStartTime s) + D
  /\ (In r (splitDataArray s)
      <-> In r dataArray
          /\ abs (slotStartTime s) < instant r < abs (slotStartTime s) + D).
Proof.
  intros HD Hss Hs.
  destruct (slots_bucket D dataArray ss s r HD Hss Hs) as [Hiff Hend].
  split; [exact Hend|]. rewrite <- Hend. exact Hiff.
Qed.

End SlotRecords.

Lemma X8_witness :
  abs (slotSplitTime batchSlot0) = abs (slotStartTime batchSlot0) + FILE_DURATION
  /\ (In (sample "2023-03-01T10:02:30Z") (splitDataArray batchSlot0)
      <-> In (sample "2023-03-01T10:02:30Z") batch
          /\ abs (slotStartTime batchSlot0)
             < instant (sample "2023-03-01T10:02:30Z")
             < abs (slotStartTime batchSlot0) + FILE_DURATION).
Proof.
  apply (X8_slot_holds_records_strictly_inside FILE_DURATION batch batchSlots
           batchSlot0 (sample "2023-03-01T10:02:30Z")).
  - reflexivity.
  - vm_compute. reflexivity.
  - left. reflexivity.
Defined.

(** ** The success lines of the log *)

Lemma compileAndStoreinS3_archived (client : S3Client)
    (splitDataArray : list MonitorData) (slotStartTime : Time)
    (orgId monitorId : string) (start : Time) :
  In (LogArchived orgId monitorId start)
     (compileAndStoreinS3 client splitDataArray slotStartTime) ->
  exists input,
    In (CallPutObject input)
       (compileAndStoreinS3 client splitDataArray slotStartTime)
    /\ client input = None
    /\ Key input = filename orgId monitorId start.
Proof.
  unfold compileAndStoreinS3. destruct splitDataArray as [|first rest]; [intros []|].
  cbv zeta. destruct (client _) as [err|] eqn:E; intros [Hin|[Hin|[]]];
    try discriminate.
  injection Hin as <- <- <-.
  eexists. split; [left; reflexivity|]. split; [exact E|reflexivity].
Qed.

Section Log.

Context `{SliceSorter}.

(** X14. A run of [compileMonitorData] writes the line that an artifact
    was archived, for an organisation, a monitor and a start, only after a
    request that the sink accepted and whose key is the one of that
    organisation, monitor and start: a failed upload is never logged as
    archived. *)
Theorem X14_archived_line_only_after_accepted_request (D : Duration)
    (dataArray : list MonitorData) (client : S3Client) (trace : list effect)
    (orgId monitorId : string) (start : Time) :
  compileMonitorData D dataArray client = Some trace ->
  In (LogArchived orgId monitorId start) trace ->
  exists input,
    In (CallPutObject input) trace
    /\ client input = None
    /\ Key input = filename orgId monitorId start.
Proof.
  unfold compileMonitorData. intros Hrun Hin.
  destruct (bounds D _) as [[rd ru]|]; [|discriminate].
  cbn [mbind option_bind] in Hrun.
  destruct (slots D dataArray) as [ss|]; [|discriminate].
  cbn [mbind option_bind] in Hrun. injection Hrun as <-.
  apply in_app_iff in Hin as [Hin|[Hin|[]]]; [|discriminate].
  apply in_concat in Hin as (t & Ht & Hin).
  pose proof Ht as Ht'. apply in_map_iff in Ht' as (s & <- & Hs).
  destruct (compileAndStoreinS3_archived _ _ _ _ _ _ Hin) as (input & Hc & Ha & Hk).
  exists input. split; [|split; assumption].
  apply in_app_iff. left. apply in_concat. eexists. split; [exact Ht|exact Hc].
Qed.

End Log.

Lemma X14_witness :
  exists input,
    In (CallPutObject input)
       (default [] (compileMonitorData FILE_DURATION batch acceptAll))
    /\ acceptAll input = None
    /\ Key input = filename "org1" "m1" (slotStartTime batchSlot0).
Proof.
  apply (X14_archived_line_only_after_accepted_request FILE_DURATION batch
           acceptAll _ "org1" "m1" (slotStartTime batchSlot0)).
  - vm_compute. reflexivity.
  - vm_compute. right. left. reflexivity.
Defined.
